(** * Wyoming ASR event handler: a shallow embedding

    The development follows [wyoming_onnx_asr/handler.py] (the handler with a
    model registry and language selection) and, in module [Nemo], the older
    [wyoming_nemo_asr/handler.py] (one model, fixed language).

    Conventions of the embedding:
    - [handle_event] is a function in a small monad [M] that threads the
      mutable attributes of [self], may raise, and records the externally
      visible actions (log records, events written to the client, lock
      operations, calls into the ASR model) in a trace, oldest first;
    - the writer behind [self._wav_file] follows the [wave] module of the
      standard library: its setters and its header refuse what they refuse
      there, and a refused call leaves the writer as it leaves it there;
    - the file behind [self._wav_path] is part of the threaded state, as the
      complete container it holds, if it holds one;
    - what [soundfile] and [numpy] compute is not fixed here: whether
      libsndfile opens a container, the float32 value it reads for a sample
      and the float32 mean numpy takes of a row are the three fields of a
      record [Libraries] over which everything is stated; float32 values
      are carried as the rationals they denote;
    - a recording stays below the 2^32 - 36 bytes that the length fields of
      a RIFF header can hold; theorems that conclude on a stored container
      say so;
    - an exception is known by its class, not by its message, except the
      one that [recognize] raises, whose [str] reaches the client;
    - [handle_event] runs while the temporary directory exists, that is
      before [close]: [wave.open] finds the directory;
    - events arrive already parsed ([AudioChunk.from_event] and
      [Transcribe.from_event] have succeeded), with integers for rate, width
      and channels. *)

From Stdlib Require Import Strings.String Strings.Ascii Strings.Byte List ZArith QArith Bool Lia.
Import ListNotations.
Local Open Scope string_scope.
Local Open Scope list_scope.
Local Open Scope Z_scope.

(** ** Exceptions *)

Inductive exn : Type :=
| AssertionError
| AttributeError
| WaveError
| StructError
| LibsndfileError
| KeyError
| RecognizeError (msg : string).

(** [str(e)]. Only a [RecognizeError] reaches an [except] clause; the other
    texts are placeholders. *)
Definition exn_str (e : exn) : string :=
  match e with
  | AssertionError => ""
  | AttributeError => "'NoneType' object has no attribute"
  | WaveError => "wave.Error"
  | StructError => "struct.error"
  | LibsndfileError => "Error opening file"
  | KeyError => "'key'"
  | RecognizeError msg => msg
  end.

(** ** The writer of the [wave] module *)

(** The state of a [wave.Wave_write] object: the three parameters (0 while
    not set), whether the header has been written, whether the object has
    been closed ([self._file is None]), and the frames written so far. Once
    closed, the same record describes the container left on disk. *)
Record Wave_write : Type := mkWave {
  framerate : Z;
  sampwidth : Z;
  nchannels : Z;
  headerwritten : bool;
  closed : bool;
  frames : list byte
}.

(** [Wave_write.initfp] *)
Definition fresh_wave : Wave_write := mkWave 0 0 0 false false [].

(** A method of the writer: the exception it raises, if any, and the writer
    it leaves. *)
Definition method : Type := Wave_write -> option exn * Wave_write.

(** [self._datawritten] is not zero. *)
Definition datawritten (w : Wave_write) : bool :=
  negb (length (frames w) =? 0)%nat.

Definition setframerate (r : Z) : method :=
  fun w =>
    if datawritten w then (Some WaveError, w)
    else if r <=? 0 then (Some WaveError, w)
    else (None, mkWave r (sampwidth w) (nchannels w) (headerwritten w) (closed w) (frames w)).

Definition setsampwidth (n : Z) : method :=
  fun w =>
    if datawritten w then (Some WaveError, w)
    else if (n <? 1) || (4 <? n) then (Some WaveError, w)
    else (None, mkWave (framerate w) n (nchannels w) (headerwritten w) (closed w) (frames w)).

Definition setnchannels (n : Z) : method :=
  fun w =>
    if datawritten w then (Some WaveError, w)
    else if n <? 1 then (Some WaveError, w)
    else (None, mkWave (framerate w) (sampwidth w) n (headerwritten w) (closed w) (frames w)).

(** The fields that [_write_header] packs with [struct.pack]: the channel
    count and the block size in 16 bits, the frame rate and the byte rate in
    32 bits. *)
Definition format_fits (r n c : Z) : bool :=
  (c <=? 65535)
  && (r <? 2 ^ 32)
  && (c * r * n <? 2 ^ 32)
  && (c * n <=? 65535).

Definition header_fits (w : Wave_write) : bool :=
  format_fits (framerate w) (sampwidth w) (nchannels w).

(** [_ensure_header_written]: the parameters must be set, the file must be
    there to write to, and the header must pack. *)
Definition ensure_header_written : method :=
  fun w =>
    if headerwritten w then (None, w)
    else if nchannels w =? 0 then (Some WaveError, w)
    else if sampwidth w =? 0 then (Some WaveError, w)
    else if framerate w =? 0 then (Some WaveError, w)
    else if closed w then (Some AttributeError, w)
    else if header_fits w
         then (None, mkWave (framerate w) (sampwidth w) (nchannels w) true (closed w) (frames w))
         else (Some StructError, w).

(** [writeframes]: the header first, then the bytes as they come. *)
Definition writeframes (data : list byte) : method :=
  fun w =>
    match ensure_header_written w with
    | (Some e, w1) => (Some e, w1)
    | (None, w1) =>
        if closed w1 then (Some AttributeError, w1)
        else (None, mkWave (framerate w1) (sampwidth w1) (nchannels w1)
                      (headerwritten w1) (closed w1) (frames w1 ++ data))
    end.

(** [Wave_write.close]: nothing on a closed writer; else the header is
    written if it was not, and the file is closed whether or not that
    raised. *)
Definition writer_close : method :=
  fun w =>
    if closed w then (None, w)
    else
      match ensure_header_written w with
      | (e, w1) =>
          (e, mkWave (framerate w1) (sampwidth w1) (nchannels w1)
                (headerwritten w1) true (frames w1))
      end.

(** ** Audio data *)

(** A numpy array of rank one (samples) or two (frames by channels); a
    float32 is carried as the rational it denotes. *)
Inductive ndarray : Type :=
| Array1 (samples : list Q)
| Array2 (rows : list (list Q)).

(** [len(waveform.shape)] *)
Definition shape_len (a : ndarray) : Z :=
  match a with
  | Array1 _ => 1
  | Array2 _ => 2
  end.

(** What the code takes from [soundfile] and [numpy]. *)
Record Libraries : Type := mkLibraries {
  (** whether libsndfile opens a complete PCM container written by [wave];
      it refuses, for one, more channels than it was built for *)
  sf_can_open : Wave_write -> bool;
  (** the float32 that [sf.read(..., dtype="float32")] gives for the bytes
      of one sample *)
  pcm_sample : list byte -> Q;
  (** the float32 that [np.mean] gives for one row *)
  row_mean : list Q -> Q
}.

(** Cut a list into consecutive groups of [n]; an incomplete last group is
    dropped, as libsndfile drops an incomplete last frame. *)
Fixpoint group_fuel {A : Type} (fuel n : nat) (l : list A) : list (list A) :=
  match fuel with
  | O => []
  | S fuel' =>
      if ((n =? 0) || (length l <? n))%nat then []
      else firstn n l :: group_fuel fuel' n (skipn n l)
  end.

Definition group {A : Type} (n : nat) (l : list A) : list (list A) :=
  group_fuel (length l) n l.

(** [sf.read(path, dtype="float32")] on a container that libsndfile opens:
    the samples and the sample rate. The array has rank one exactly for one
    channel. *)
Definition sf_read (lib : Libraries) (w : Wave_write) : ndarray * Z :=
  let samples := map (pcm_sample lib) (group (Z.to_nat (sampwidth w)) (frames w)) in
  (if nchannels w =? 1 then Array1 samples
   else Array2 (group (Z.to_nat (nchannels w)) samples),
   framerate w).

(** [np.mean(waveform, axis=1)] on an array of rank two. *)
Definition np_mean_axis1 (lib : Libraries) (rows : list (list Q)) : list Q :=
  map (row_mean lib) rows.

(** Lines 89-90: "Make mono by averaging the channels". *)
Definition make_mono (lib : Libraries) (waveform : ndarray) : ndarray :=
  if shape_len waveform >? 1 then
    match waveform with
    | Array2 rows => Array1 (np_mean_axis1 lib rows)
    | Array1 _ => waveform
    end
  else waveform.

(** ** Events, models and observable actions *)

(** The payload of an audio chunk, as [AudioChunk.from_event] returns it. *)
Record Chunk : Type := mkChunk {
  rate : Z;
  width : Z;
  channels : Z;
  audio : list byte
}.

(** Incoming protocol events, by the type test that accepts them. *)
Inductive Event : Type :=
| AudioChunk (chunk : Chunk)
| AudioStop
| Transcribe (language : option string)
| Describe
| OtherEvent (type : string).

(** Events written back to the client. *)
Inductive out_event : Type :=
| Transcript (text : string)
| InfoEvent (payload : string).

(** What one [recognize] call does: it returns a text or raises an exception
    [e], given here by [str(e)]. *)
Inductive recognized : Type :=
| Text (text : string)
| Raises (msg : string).

(** An ASR adapter: [recognize(waveform, sample_rate=..., language=...)]. *)
Definition AsrAdapter : Type := ndarray -> Z -> string -> recognized.

Inductive level : Type := lvl_debug | lvl_info | lvl_error.

Inductive effect : Type :=
| Log (l : level) (msg : string)
| Printed (msg : string)
| Sent (e : out_event)
| Acquire
| Release
| Recognize (key : string) (waveform : ndarray) (sample_rate : Z) (language : string).

(** ** The monad of handler code *)

Inductive result (A : Type) : Type :=
| Returned (a : A)
| Raised (e : exn).
Arguments Returned {A} a.
Arguments Raised {A} e.

Definition M (S A : Type) : Type := S -> result A * S * list effect.

Definition ret {S A : Type} (a : A) : M S A := fun s => (Returned a, s, []).

Definition bind {S A B : Type} (m : M S A) (k : A -> M S B) : M S B :=
  fun s =>
    match m s with
    | (Returned a, s1, t1) =>
        match k a s1 with
        | (r, s2, t2) => (r, s2, t1 ++ t2)
        end
    | (Raised e, s1, t1) => (Raised e, s1, t1)
    end.

Definition raise {S A : Type} (e : exn) : M S A := fun s => (Raised e, s, []).
Definition emit {S : Type} (e : effect) : M S unit := fun s => (Returned tt, s, [e]).
Definition gets {S A : Type} (f : S -> A) : M S A := fun s => (Returned (f s), s, []).
Definition modify {S : Type} (f : S -> S) : M S unit := fun s => (Returned tt, f s, []).

(** [try: body except Exception as e: handler(e)]; every modelled exception
    derives from [Exception]. *)
Definition try_except {S A : Type} (body : M S A) (handler : exn -> M S A) : M S A :=
  fun s =>
    match body s with
    | (Returned a, s1, t1) => (Returned a, s1, t1)
    | (Raised e, s1, t1) =>
        match handler e s1 with
        | (r, s2, t2) => (r, s2, t1 ++ t2)
        end
    end.

(** [async with self.model_lock: body]: the lock is released however the
    body is left. *)
Definition with_lock {S A : Type} (body : M S A) : M S A :=
  fun s =>
    match body s with
    | (r, s1, t1) => (r, s1, Acquire :: t1 ++ [Release])
    end.

(** Run code written over a part of the state. *)
Definition lift {S T A : Type} (proj : S -> T) (inj : T -> S -> S) (m : M T A) : M S A :=
  fun s =>
    match m (proj s) with
    | (r, t1, tr) => (r, inj t1 s, tr)
    end.

Declare Scope monad_scope.
Delimit Scope monad_scope with monad.
Notation "x <- m ;; k" := (bind m (fun x => k))
  (at level 61, m at next level, right associativity) : monad_scope.
Notation "m ;; k" := (bind m (fun _ => k))
  (at level 61, right associativity) : monad_scope.
Local Open Scope monad_scope.

(** ** The temporary audio sink *)

(** [self._wav_file] and the file behind [self._wav_path]: [speech_wav] is
    the complete container there, or [None] while the file is missing,
    empty or cut short. *)
Record sink : Type := mkSink {
  wav_file : option Wave_write;
  speech_wav : option Wave_write
}.

(** [self._wav_file = wave.open(self._wav_path, "wb")]: truncates the file. *)
Definition wave_open : M sink unit :=
  modify (fun _ => mkSink (Some fresh_wave) None).

(** A method call on [self._wav_file]. *)
Definition on_wav_file (f : method) : M sink unit :=
  fun s =>
    match wav_file s with
    | Some w =>
        match f w with
        | (Some e, w1) => (Raised e, mkSink (Some w1) (speech_wav s), [])
        | (None, w1) => (Returned tt, mkSink (Some w1) (speech_wav s), [])
        end
    | None => (Raised AttributeError, s, [])
    end.

(** [self._wav_file.close()]: a writer that closes without raising leaves
    its container on disk. *)
Definition wave_close : M sink unit :=
  fun s =>
    match wav_file s with
    | Some w =>
        match writer_close w with
        | (Some e, w1) => (Raised e, mkSink (Some w1) (speech_wav s), [])
        | (None, w1) =>
            (Returned tt,
             mkSink (Some w1) (if closed w then speech_wav s else Some w1), [])
        end
    | None => (Raised AttributeError, s, [])
    end.

(** [sf.read(self._wav_path, dtype="float32")] *)
Definition sf_read_path (lib : Libraries) : M sink (ndarray * Z) :=
  fun s =>
    match speech_wav s with
    | Some w =>
        if sf_can_open lib w then (Returned (sf_read lib w), s, [])
        else (Raised LibsndfileError, s, [])
    | None => (Raised LibsndfileError, s, [])
    end.

(** Lines 65-75 (the same in both handlers): buffer one chunk. *)
Definition buffer_chunk (chunk : Chunk) : M sink bool :=
  f <- gets wav_file ;;
  match f with
  | None =>
      wave_open ;;
      on_wav_file (setframerate (rate chunk)) ;;
      on_wav_file (setsampwidth (width chunk)) ;;
      on_wav_file (setnchannels (channels chunk))
  | Some _ => ret tt
  end ;;
  on_wav_file (writeframes (audio chunk)) ;;
  ret true.

(** Lines 84-90: close the sink, read it back, make it mono. *)
Definition finalize_and_read (lib : Libraries) : M sink (ndarray * Z) :=
  wave_close ;;
  modify (fun s => mkSink None (speech_wav s)) ;;
  r <- sf_read_path lib ;;
  ret (make_mono lib (fst r), snd r).
(** ** Python helpers *)

(** Truth value of an [Optional[str]]: [None] and the empty string are false. *)
Definition truthy (s : option string) : bool :=
  match s with
  | Some (String _ _) => true
  | _ => false
  end.

(** [s or d] *)
Definition py_or (s : option string) (d : string) : string :=
  match s with
  | Some (String a r) => String a r
  | _ => d
  end.

(** [str(s)], as ["%s"] and an f-string format an [Optional[str]]. *)
Definition py_str (s : option string) : string :=
  match s with
  | Some x => x
  | None => "None"
  end.

(** A [Mapping[str, AsrAdapter]] in insertion order. *)
Definition registry : Type := list (string * AsrAdapter).

(** [list(models.keys())] *)
Definition keys (models : registry) : list string := map fst models.

(** [k in models] *)
Definition contains (k : string) (models : registry) : bool :=
  existsb (String.eqb k) (keys models).

(** [models.get(k)] *)
Fixpoint lookup (k : string) (models : registry) : option AsrAdapter :=
  match models with
  | [] => None
  | (k', a) :: rest => if String.eqb k k' then Some a else lookup k rest
  end.

(** [model.recognize(waveform, sample_rate=..., language=...)] on the adapter
    stored under [key]. *)
Definition recognize {S : Type} (key : string) (adapter : AsrAdapter)
    (waveform : ndarray) (sample_rate : Z) (language : string) : M S string :=
  fun s =>
    match adapter waveform sample_rate language with
    | Text t => (Returned t, s, [Recognize key waveform sample_rate language])
    | Raises msg =>
        (Raised (RecognizeError msg), s, [Recognize key waveform sample_rate language])
    end.

(** ** The handler of [wyoming_onnx_asr] *)

(** Attributes set once by [__init__]. The lock is the one shared object
    behind [Acquire] and [Release]. *)
Record config : Type := mkConfig {
  wyoming_info_event : string;
  models : registry;
  initial_prompt : option string
}.

(** Attributes that [handle_event] assigns. *)
Record handler : Type := mkHandler {
  request_language : option string;
  wav : sink
}.

(** The handler as [__init__] leaves it. *)
Definition init : handler := mkHandler None (mkSink None None).

Definition on_sink {A : Type} (m : M sink A) : M handler A :=
  lift wav (fun k h => mkHandler (request_language h) k) m.

Definition set_request_language (l : option string) : M handler unit :=
  modify (fun h => mkHandler l (wav h)).

Definition log {S : Type} (l : level) (msg : string) : M S unit := emit (Log l msg).

(** [await self.write_event(e)] *)
Definition write_event {S : Type} (e : out_event) : M S unit := emit (Sent e).

Section Handler.

(** The libraries under the handler. *)
Variable lib : Libraries.

(** Python's [repr] of a list of strings, as an f-string and ["%s"] print
    [list(self.models.keys())]. *)
Variable py_repr : list string -> string.

(** [self.models[k]] *)
Definition getitem (k : string) (models : registry) : M handler (string * AsrAdapter) :=
  match lookup k models with
  | Some a => ret (k, a)
  | None => raise KeyError
  end.

(** Lines 94-107: "Decide on language and model". *)
Definition select_model (cfg : config) (lang : string)
    : M handler (option (string * AsrAdapter)) :=
  if String.eqb lang "en" && contains "en" (models cfg) then
    model <- getitem "en" (models cfg) ;;
    log lvl_info ("Selected English model for language '" ++ lang ++ "'")%string ;;
    ret (Some model)
  else if contains "multi" (models cfg) then
    model <- getitem "multi" (models cfg) ;;
    log lvl_info ("Selected multilingual model for language '" ++ lang ++ "'")%string ;;
    ret (Some model)
  else if contains "en" (models cfg) then
    model <- getitem "en" (models cfg) ;;
    log lvl_info ("Fallback to English model for language '" ++ lang ++ "'")%string ;;
    ret (Some model)
  else ret None.

(** Lines 109-123: no model was selected. *)
Definition report_no_model (cfg : config) : M handler bool :=
  rl <- gets request_language ;;
  error_msg <-
    (if truthy rl then
       log lvl_error ("Language '" ++ py_str rl
                      ++ "' requested but no suitable model is available")%string ;;
       log lvl_error ("Available models: " ++ py_repr (keys (models cfg)))%string ;;
       ret ("Language '" ++ py_str rl ++ "' is not supported. Available models: "
            ++ py_repr (keys (models cfg)))%string
     else
       log lvl_error "No ASR model loaded - server misconfiguration" ;;
       ret "No ASR model is available for transcription") ;;
  write_event (Transcript ("ERROR: " ++ error_msg)%string) ;;
  ret false.

(** Lines 125-142: the call into the model under the lock. [inl text] leaves
    the block normally, [inr b] stands for [return b] inside it. *)
Definition transcribe_locked (key : string) (adapter : AsrAdapter)
    (waveform : ndarray) (sample_rate : Z) (lang : string) : M handler (string + bool) :=
  with_lock
    (try_except
       (log lvl_info ("Starting transcription with model for language '"
                      ++ lang ++ "'")%string ;;
        text <- recognize key adapter waveform sample_rate lang ;;
        log lvl_info ("Transcription completed successfully for language '"
                      ++ lang ++ "'")%string ;;
        ret (inl text))
       (fun e =>
          log lvl_error ("Model recognition failed: " ++ exn_str e)%string ;;
          write_event (Transcript ("ERROR: " ++ ("Transcription failed: " ++ exn_str e))%string) ;;
          ret (inr false))).

(** [handle_event], lines 64-165. *)
Definition handle_event (cfg : config) (event : Event) : M handler bool :=
  match event with
  | AudioChunk chunk => on_sink (buffer_chunk chunk)
  | AudioStop =>
      log lvl_debug ("Audio stopped. Transcribing with initial prompt="
                     ++ py_str (initial_prompt cfg))%string ;;
      f <- gets (fun h => wav_file (wav h)) ;;
      match f with
      | None => raise AssertionError
      | Some _ => ret tt
      end ;;
      r <- on_sink (finalize_and_read lib) ;;
      let waveform := fst r in
      let sample_rate := snd r in
      rl <- gets request_language ;;
      let lang := py_or rl "en" in
      log lvl_info ("Language requested: " ++ lang)%string ;;
      log lvl_info ("Available models: " ++ py_repr (keys (models cfg)))%string ;;
      model <- select_model cfg lang ;;
      match model with
      | None => report_no_model cfg
      | Some (key, adapter) =>
          r <- transcribe_locked key adapter waveform sample_rate lang ;;
          match r with
          | inr b => ret b
          | inl text =>
              log lvl_info (lang ++ ":" ++ text)%string ;;
              write_event (Transcript text) ;;
              log lvl_debug "Completed request" ;;
              set_request_language None ;;
              ret false
          end
      end
  | Transcribe language =>
      set_request_language language ;;
      ret true
  | Describe =>
      write_event (InfoEvent (wyoming_info_event cfg)) ;;
      log lvl_debug "Sent info" ;;
      ret true
  | OtherEvent _ => ret true
  end.

(** The events of a connection delivered one after another to the same
    handler object; the list of return values so far. An exception ends it. *)
Fixpoint feed (cfg : config) (events : list Event) : M handler (list bool) :=
  match events with
  | [] => ret []
  | e :: rest =>
      b <- handle_event cfg e ;;
      bs <- feed cfg rest ;;
      ret (b :: bs)
  end.

End Handler.

(** ** The handler of [wyoming_nemo_asr] *)

Module Nemo.

(** Attributes set by [__init__]; none is assigned later except
    [self._wav_file], which is the [sink] state. *)
Record config : Type := mkConfig {
  wyoming_info_event : string;
  model : AsrAdapter;
  initial_prompt : option string;
  wav_path : string
}.

(** [handle_event], lines 44-92. *)
Definition handle_event (lib : Libraries) (cfg : config) (event : Event) : M sink bool :=
  match event with
  | AudioChunk chunk => buffer_chunk chunk
  | AudioStop =>
      log lvl_debug ("Audio stopped. Transcribing with initial prompt="
                     ++ py_str (initial_prompt cfg))%string ;;
      f <- gets wav_file ;;
      match f with
      | None => raise AssertionError
      | Some _ => ret tt
      end ;;
      wave_close ;;
      modify (fun s => mkSink None (speech_wav s)) ;;
      emit (Printed (wav_path cfg)) ;;
      r <- sf_read_path lib ;;
      let waveform := make_mono lib (fst r) in
      let sample_rate := snd r in
      text <- with_lock (recognize "model" (model cfg) waveform sample_rate "en") ;;
      log lvl_info text ;;
      write_event (Transcript text) ;;
      log lvl_debug "Completed request" ;;
      ret false
  | Transcribe language => ret true
  | Describe =>
      write_event (InfoEvent (wyoming_info_event cfg)) ;;
      log lvl_debug "Sent info" ;;
      ret true
  | OtherEvent _ => ret true
  end.

End Nemo.

(** ** Reading outcomes and traces *)

Definition value_of {S A : Type} (o : result A * S * list effect) : result A := fst (fst o).
Definition state_of {S A : Type} (o : result A * S * list effect) : S := snd (fst o).
Definition trace_of {S A : Type} (o : result A * S * list effect) : list effect := snd o.

(** The arguments of the [recognize] calls of a trace, in order. *)
Fixpoint recognize_calls (tr : list effect) : list (string * ndarray * Z * string) :=
  match tr with
  | [] => []
  | Recognize k w r l :: tr' => (k, w, r, l) :: recognize_calls tr'
  | _ :: tr' => recognize_calls tr'
  end.

(** The events written to the client, in order. *)
Fixpoint sent (tr : list effect) : list out_event :=
  match tr with
  | [] => []
  | Sent e :: tr' => e :: sent tr'
  | _ :: tr' => sent tr'
  end.

(** The log records of a trace, in order. *)
Fixpoint logged (tr : list effect) : list (level * string) :=
  match tr with
  | [] => []
  | Log l m :: tr' => (l, m) :: logged tr'
  | _ :: tr' => logged tr'
  end.

(** [text.startswith("ERROR:")] *)
Definition error_tagged (text : string) : bool := String.prefix "ERROR:" text.

(** An exception that is the failure of an [assert]. *)
Definition fatal_assertion {A : Type} (r : result A) : bool :=
  match r with
  | Raised AssertionError => true
  | _ => false
  end.

(** The lock discipline of one task: [held] tells whether the task is inside
    [async with self.model_lock]. The lock is taken only outside, released
    only inside, the model is called only inside, and the task ends outside. *)
Fixpoint lock_ok (held : bool) (tr : list effect) : bool :=
  match tr with
  | [] => negb held
  | Acquire :: tr' => negb held && lock_ok true tr'
  | Release :: tr' => held && lock_ok false tr'
  | Recognize _ _ _ _ :: tr' => held && lock_ok held tr'
  | _ :: tr' => lock_ok held tr'
  end.

(** A piece of trace made of log records only. *)
Definition only_logs (tr : list effect) : bool :=
  forallb (fun e => match e with Log _ _ => true | _ => false end) tr.

(** ** Model selection as a function of language and keys *)

(** The entry that lines 94-107 select for the language [lang]. *)
Definition selected (cfg : config) (lang : string) : option (string * AsrAdapter) :=
  match value_of (select_model cfg lang init) with
  | Returned m => m
  | Raised _ => None
  end.

(** The key selected for a pending requested language. *)
Definition selected_key (cfg : config) (requested : option string) : option string :=
  option_map fst (selected cfg (py_or requested "en")).

(** The priority order over a set of keys, for a request that does or does
    not count as English. *)
Definition priority (english : bool) (has : string -> bool) : option string :=
  if english && has "en" then Some "en"
  else if has "multi" then Some "multi"
  else if has "en" then Some "en"
  else None.

(** The rule as the specification words it: English is ["en"] or unset. *)
Definition spec_select (requested : option string) (has : string -> bool) : option string :=
  priority (match requested with
            | None => true
            | Some l => String.eqb l "en"
            end) has.

(** The rule of the code: the empty string counts as unset too. *)
Definition code_select (requested : option string) (has : string -> bool) : option string :=
  priority (match requested with
            | None => true
            | Some l => String.eqb l "" || String.eqb l "en"
            end) has.

(** A registry holding the given keys. *)
Definition registry_of (adapter : AsrAdapter) (ks : list string) : registry :=
  map (fun k => (k, adapter)) ks.

(** ** Sinks in good order *)

(** A writer that takes frames: its header is written and it is not closed.
    That is the writer every accepted chunk leaves. *)
Definition writing (w : Wave_write) : bool := headerwritten w && negb (closed w).

(** A sink as the handler has it as long as none of its calls raised: no
    writer, or one that takes frames. *)
Definition healthy (s : sink) : bool :=
  match wav_file s with
  | None => true
  | Some w => writing w
  end.

(** The container a writer that takes frames leaves when closed. *)
Definition sealed (w : Wave_write) : Wave_write :=
  mkWave (framerate w) (sampwidth w) (nchannels w) true true (frames w).

(** The complete container with the given format and frames. *)
Definition container (r n c : Z) (bytes : list byte) : Wave_write :=
  mkWave r n c true true bytes.

(** The writer right after a first chunk, and with more frames. *)
Definition opened (r n c : Z) (bytes : list byte) : Wave_write :=
  mkWave r n c true false bytes.

(** Why the [wave] module refuses a first chunk, if it does: a setter
    rejects the rate, the width or the channel count, or the header does
    not pack. *)
Definition chunk_refusal (c : Chunk) : option exn :=
  if (rate c <=? 0) || (width c <? 1) || (4 <? width c) || (channels c <? 1)
  then Some WaveError
  else if format_fits (rate c) (width c) (channels c) then None
  else Some StructError.

Definition wave_accepts (c : Chunk) : bool :=
  match chunk_refusal c with
  | None => true
  | Some _ => false
  end.

(** The length fields of the RIFF header hold these many bytes. *)
Definition riff_fits (bytes : list byte) : bool :=
  Z.of_nat (length bytes) + 36 <? 2 ^ 32.

(** A writer whose recording [AudioStop] can close and read back: it takes
    frames, the header can hold their length, and libsndfile opens the
    container. *)
Definition reads_back (lib : Libraries) (w : Wave_write) : bool :=
  writing w && riff_fits (frames w) && sf_can_open lib (sealed w).

(** Chunks that make a recording when they arrive at a handler with no open
    sink: [wave] accepts the format of the first, the header can hold the
    length of all, and libsndfile opens the container. *)
Definition recordable (lib : Libraries) (c : Chunk) (cs : list Chunk) : bool :=
  wave_accepts c
  && riff_fits (concat (map audio (c :: cs)))
  && sf_can_open lib
       (container (rate c) (width c) (channels c) (concat (map audio (c :: cs)))).

(** The writer that a refused first chunk leaves behind. *)
Definition refused (c : Chunk) : Wave_write :=
  if rate c <=? 0 then fresh_wave
  else if (width c <? 1) || (4 <? width c) then mkWave (rate c) 0 0 false false []
  else if channels c <? 1 then mkWave (rate c) (width c) 0 false false []
  else mkWave (rate c) (width c) (channels c) false false [].

(** The bytes in the writer, and the bytes an event adds to them. *)
Definition recorded (s : sink) : list byte :=
  match wav_file s with
  | Some w => frames w
  | None => []
  end.

Definition payload (e : Event) : list byte :=
  match e with
  | AudioChunk c => audio c
  | _ => []
  end.

(** An event that is not a chunk in a format that [wave] refuses. *)
Definition accepted (e : Event) : bool :=
  match e with
  | AudioChunk c => wave_accepts c
  | _ => true
  end.

(** The handler once [AudioStop] has closed the writer [w]. *)
Definition after_close (h : handler) (w : Wave_write) : handler :=
  mkHandler (request_language h) (mkSink None (Some (sealed w))).

(** What [AudioStop] hands to the model for the container [w]. *)
Definition waveform_of (lib : Libraries) (w : Wave_write) : ndarray :=
  make_mono lib (fst (sf_read lib w)).

(** The model-facing failures of an [AudioStop] on the recording [w]: an
    empty registry, no model selectable for the requested language, or the
    selected model raising in [recognize]. *)
Definition model_failure (lib : Libraries) (cfg : config) (h : handler) (w : Wave_write)
    : Prop :=
  let lang := py_or (request_language h) "en" in
  models cfg = []
  \/ selected cfg lang = None
  \/ exists k a msg,
       selected cfg lang = Some (k, a)
       /\ a (waveform_of lib w) (framerate w) lang = Raises msg.

(** The sink after one more chunk. *)
Definition write_chunk (c : Chunk) (s : sink) : sink := state_of (buffer_chunk c s).

(** ** Sessions sharing the lock *)

(** The actions of one session: a handler fed the events of its connection. *)
Definition session_trace (lib : Libraries) (py_repr : list string -> string)
    (s : config * handler * list Event) : list effect :=
  trace_of (feed lib py_repr (fst (fst s)) (snd s) (snd (fst s))).

(** The shared [asyncio.Lock] and, per session, the actions still to do. *)
Record system : Type := mkSystem {
  locked : bool;
  pending : nat -> list effect
}.

Definition advance (i : nat) (rest : list effect) (p : nat -> list effect)
    : nat -> list effect :=
  fun j => if Nat.eqb j i then rest else p j.

(** One action of session [i]. Taking the lock needs it free; any other
    action of any session may come next. *)
Inductive step : system -> nat * effect -> system -> Prop :=
| step_acquire : forall p i rest,
    p i = Acquire :: rest ->
    step (mkSystem false p) (i, Acquire) (mkSystem true (advance i rest p))
| step_release : forall l p i rest,
    p i = Release :: rest ->
    step (mkSystem l p) (i, Release) (mkSystem false (advance i rest p))
| step_action : forall l p i e rest,
    p i = e :: rest ->
    e <> Acquire ->
    e <> Release ->
    step (mkSystem l p) (i, e) (mkSystem l (advance i rest p)).

Inductive exec : system -> list (nat * effect) -> system -> Prop :=
| exec_nil : forall s, exec s [] s
| exec_cons : forall s1 a s2 g s3,
    step s1 a s2 -> exec s2 g s3 -> exec s1 (a :: g) s3.

Definition start (traces : list (list effect)) : system :=
  mkSystem false (fun i => nth i traces []).

Definition owned_by (i : nat) (owner : option nat) : bool :=
  match owner with
  | Some j => Nat.eqb i j
  | None => false
  end.

(** A global schedule is serialized when the lock is taken only while free,
    released only by the session that took it, and [recognize] is called
    only by the session that holds it. *)
Fixpoint serialized (owner : option nat) (g : list (nat * effect)) : bool :=
  match g with
  | [] => true
  | (i, Acquire) :: g' =>
      match owner with
      | None => serialized (Some i) g'
      | Some _ => false
      end
  | (i, Release) :: g' => owned_by i owner && serialized None g'
  | (i, Recognize _ _ _ _) :: g' => owned_by i owner && serialized owner g'
  | _ :: g' => serialized owner g'
  end.

(** The next action of session [i], if it can move: a session waiting for a
    held lock cannot. *)
Definition next_action (s : system) (i : nat) : option (effect * system) :=
  match pending s i with
  | [] => None
  | Acquire :: rest =>
      if locked s then None
      else Some (Acquire, mkSystem true (advance i rest (pending s)))
  | Release :: rest => Some (Release, mkSystem false (advance i rest (pending s)))
  | e :: rest => Some (e, mkSystem (locked s) (advance i rest (pending s)))
  end.

(** Let the sessions move in the given order; [None] if one of them cannot. *)
Fixpoint schedule (s : system) (order : list nat)
    : option (list (nat * effect) * system) :=
  match order with
  | [] => Some ([], s)
  | i :: order' =>
      match next_action s i with
      | None => None
      | Some (e, s1) =>
          match schedule s1 order' with
          | None => None
          | Some (g, s2) => Some ((i, e) :: g, s2)
          end
      end
  end.

(** What links the lock to the sessions: it is held exactly when some session
    owns it, and each session's remaining actions keep the lock discipline
    from where it stands. *)
Definition consistent (owner : option nat) (s : system) : Prop :=
  locked s = match owner with Some _ => true | None => false end
  /\ forall j, lock_ok (owned_by j owner) (pending s j) = true.

(** ** Cleanup *)

(** The handler object with its [tempfile.TemporaryDirectory]: [wav_dir] is
    the directory's name while [self._wav_dir] is set. *)
Record resources : Type := mkResources {
  self : handler;
  wav_dir : option string
}.

(** What [__init__] builds in the temporary directory [dir]. *)
Definition new (dir : string) : resources := mkResources init (Some dir).

Definition on_self {A : Type} (m : M handler A) : M resources A :=
  lift self (fun h r => mkResources h (wav_dir r)) m.

(** [self._wav_dir.cleanup()]: the directory goes, and the file in it. *)
Definition cleanup : M resources unit :=
  modify (fun r =>
            mkResources
              (mkHandler (request_language (self r))
                 (mkSink (wav_file (wav (self r))) None))
              (wav_dir r)).

(** [close], lines 45-52: "Cleanup temporary resources". *)
Definition close : M resources unit :=
  f <- gets (fun r => wav_file (wav (self r))) ;;
  match f with
  | Some _ =>
      on_self (on_sink wave_close) ;;
      on_self (on_sink (modify (fun s => mkSink None (speech_wav s))))
  | None => ret tt
  end ;;
  d <- gets wav_dir ;;
  match d with
  | Some _ =>
      cleanup ;;
      modify (fun r => mkResources (self r) None)
  | None => ret tt
  end.

(** [with handler: body]: [__enter__] returns the handler, [__exit__] calls
    [close] and returns [None], so an exception of the body goes on unless
    [close] raises one of its own. *)
Definition with_handler {A : Type} (body : M resources A) : M resources A :=
  fun r =>
    match body r with
    | (v, r1, t1) =>
        match close r1 with
        | (Returned _, r2, t2) => (v, r2, t1 ++ t2)
        | (Raised e, r2, t2) => (Raised e, r2, t1 ++ t2)
        end
    end.

(** Nothing is left: no open writer, no file, no directory. *)
Definition released (r : resources) : bool :=
  match wav_file (wav (self r)), speech_wav (wav (self r)), wav_dir r with
  | None, None, None => true
  | _, _, _ => false
  end.

(** ** More readings of traces and events *)

(** The texts of the [Transcript] events written, in order. *)
Definition transcripts (tr : list effect) : list string :=
  flat_map (fun e => match e with
                     | Transcript t => [t]
                     | InfoEvent _ => []
                     end) (sent tr).

(** A trace that neither touches the lock nor calls a model. *)
Definition lock_free (tr : list effect) : bool :=
  forallb (fun e => match e with
                    | Acquire | Release | Recognize _ _ _ _ => false
                    | _ => true
                    end) tr.

(** The lock operations and model calls of a trace, in order. *)
Definition critical (tr : list effect) : list effect :=
  filter (fun e => match e with
                   | Acquire | Release | Recognize _ _ _ _ => true
                   | _ => false
                   end) tr.

(** The exception that ended a run, if one did. *)
Definition exn_of {A : Type} (r : result A) : option exn :=
  match r with
  | Returned _ => None
  | Raised e => Some e
  end.

(** Events that [handle_event] answers without looking at the audio or the
    requested language. *)
Definition is_passive (e : Event) : bool :=
  match e with
  | Describe | OtherEvent _ => true
  | _ => false
  end.

(** What every call into a model looks like: the adapter stored under
    ["en"] or ["multi"], a waveform of rank one, a language that is not
    empty. *)
Definition call_ok (c : string * ndarray * Z * string) : bool :=
  match c with
  | (k, w, _, l) =>
      (String.eqb k "en" || String.eqb k "multi")
      && (shape_len w =? 1)
      && negb (String.eqb l "")
  end.


(** A call without the registry key of the adapter. *)
Definition call_args (c : string * ndarray * Z * string) : ndarray * Z * string :=
  match c with
  | (_, w, r, l) => (w, r, l)
  end.

(** The older handler's events delivered one after another. *)
Fixpoint nemo_feed (lib : Libraries) (cfg : Nemo.config) (events : list Event)
    : M sink (list bool) :=
  match events with
  | [] => ret []
  | e :: rest =>
      b <- Nemo.handle_event lib cfg e ;;
      bs <- nemo_feed lib cfg rest ;;
      ret (b :: bs)
  end.

(** The payloads of the info events written, in order. *)
Definition infos (tr : list effect) : list string :=
  flat_map (fun e => match e with
                     | InfoEvent p => [p]
                     | Transcript _ => []
                     end) (sent tr).

Definition is_describe (e : Event) : bool :=
  match e with
  | Describe => true
  | _ => false
  end.

Definition is_transcribe (e : Event) : bool :=
  match e with
  | Transcribe _ => true
  | _ => false
  end.

(** The actions of one session of the older handler. *)
Definition nemo_session_trace (lib : Libraries) (s : Nemo.config * sink * list Event)
    : list effect :=
  trace_of (nemo_feed lib (fst (fst s)) (snd s) (snd (fst s))).

(** The language that reaches model selection and [recognize] for a pending
    request: the request itself unless it is unset or empty. *)
Definition effective_language (requested : option string) : string :=
  match requested with
  | None => "en"
  | Some "" => "en"
  | Some l => l
  end.

(** ** A library instance for examples *)

(** [floor (log2 (n / d))] for positive [n]. *)
Definition floor_log2 (n : Z) (d : positive) : Z :=
  let k := Z.log2 n - Z.log2 (Z.pos d) in
  if n * 2 ^ Z.max 0 (- k) <? Z.pos d * 2 ^ Z.max 0 k then k - 1 else k.

(** The integer nearest to [n / d], ties to even. *)
Definition nearest_even (n d : Z) : Z :=
  let q := n / d in
  let r := n mod d in
  if 2 * r <? d then q
  else if d <? 2 * r then q + 1
  else if Z.even q then q else q + 1.

(** Rounding to binary32: 24 significant bits, least exponent -149. *)
Definition binary32_round (q : Q) : Q :=
  if Qnum q =? 0 then 0%Q
  else
    let a := Z.abs (Qnum q) in
    let e := floor_log2 a (Qden q) in
    let p := Z.max (e - 23) (-149) in
    let m := nearest_even (a * 2 ^ Z.max 0 (- p)) (Z.pos (Qden q) * 2 ^ Z.max 0 p) in
    Qmake (Z.sgn (Qnum q) * m * 2 ^ Z.max 0 p) (Z.to_pos (2 ^ Z.max 0 (- p))).

(** Little-endian value of a byte string. *)
Definition le_unsigned (bs : list byte) : Z :=
  fold_right (fun b acc => Z.of_N (Byte.to_N b) + 256 * acc) 0 bs.

(** libsndfile reading PCM as float: 8-bit samples are unsigned with offset
    128, wider ones two's complement; the integer is converted to float32
    and scaled into [-1, 1). The rational is given in lowest terms. *)
Definition binary32_sample (bs : list byte) : Q :=
  let u := le_unsigned bs in
  let half := 2 ^ (8 * Z.of_nat (length bs) - 1) in
  let s := if (length bs =? 1)%nat then u - 128
           else if u <? half then u else u - 2 * half in
  Qred (binary32_round (inject_Z s) / inject_Z half)%Q.

(** numpy's float32 mean of a row of fewer than eight samples: summed from
    the left and divided by the count, each result rounded. (Longer rows
    are summed in blocks; the examples have none.) *)
Definition binary32_mean (row : list Q) : Q :=
  Qred (binary32_round
          (fold_left (fun acc x => binary32_round (acc + x)) row 0
           / inject_Z (Z.of_nat (length row)))%Q).

(** libsndfile built for at most 1024 channels, with float32 arithmetic
    rounded to nearest. *)
Definition binary32 : Libraries :=
  mkLibraries
    (fun w => (nchannels w <=? 1024) && (framerate w <? 2 ^ 31))
    binary32_sample
    binary32_mean.

(** ** Concrete data for examples *)

(** [repr] of a list of keys made of printable ASCII characters other than
    quotes and the backslash. *)
Definition repr_plain (l : list string) : string :=
  ("[" ++ String.concat ", " (map (fun s => "'" ++ s ++ "'") l) ++ "]")%string.

Definition says (text : string) : AsrAdapter := fun _ _ _ => Text text.
Definition fails (msg : string) : AsrAdapter := fun _ _ _ => Raises msg.

Definition with_prompt (p : option string) (cfg : config) : config :=
  mkConfig (wyoming_info_event cfg) (models cfg) p.

Definition silence : Chunk := mkChunk 16000 2 1 [x00; x00; x00; x00].
Definition stereo : Chunk := mkChunk 16000 2 2 [x00; x40; x00; x00; x00; xc0; x00; x40].

(** A handler in the middle of an utterance: one 16-bit mono sample of 0.5
    is buffered. *)
Definition buffering (requested : option string) : handler :=
  mkHandler requested (mkSink (Some (opened 16000 2 1 [x00; x40])) None).

(** Two connections: an English utterance, and a French one in stereo. *)
Definition two_sessions : list (config * handler * list Event) :=
  let cfg := mkConfig "" [("en", says "hello"); ("multi", says "bonjour")] None in
  [(cfg, init, [AudioChunk silence; AudioStop]);
   (cfg, init, [Transcribe (Some "fr"); AudioChunk stereo; AudioStop])].

(** Session 0 takes the lock while session 1 is still logging; session 1
    takes it after the release. *)
Definition interleaving : list nat :=
  [0; 1; 0; 0; 0; 0; 1; 1; 1; 0; 0; 0; 0; 1; 0; 1; 1; 0; 1; 1; 0; 1; 1; 1]%nat.

(** Two connections to the older handler. *)
Definition two_nemo_sessions : list (Nemo.config * sink * list Event) :=
  let cfg := Nemo.mkConfig "" (says "hello") None "/tmp/speech.wav" in
  [(cfg, mkSink None None, [AudioChunk silence; AudioStop]);
   (cfg, mkSink None None, [AudioChunk stereo; AudioStop])].

(** * Properties *)

(** ** Traces *)

Lemma recognize_calls_app : forall t1 t2,
  recognize_calls (t1 ++ t2) = recognize_calls t1 ++ recognize_calls t2.
Proof.
  induction t1 as [|e t1 IH]; intros t2; [reflexivity|].
  destruct e; simpl; rewrite IH; reflexivity.
Qed.

Lemma sent_app : forall t1 t2, sent (t1 ++ t2) = sent t1 ++ sent t2.
Proof.
  induction t1 as [|e t1 IH]; intros t2; [reflexivity|].
  destruct e; simpl; rewrite IH; reflexivity.
Qed.

Lemma only_logs_calls : forall tr, only_logs tr = true -> recognize_calls tr = [].
Proof.
  induction tr as [|e tr IH]; [reflexivity|].
  destruct e; simpl; intros H; try discriminate; auto.
Qed.

Lemma only_logs_sent : forall tr, only_logs tr = true -> sent tr = [].
Proof.
  induction tr as [|e tr IH]; [reflexivity|].
  destruct e; simpl; intros H; try discriminate; auto.
Qed.

Lemma lock_ok_logs : forall tr rest held,
  only_logs tr = true -> lock_ok held (tr ++ rest) = lock_ok held rest.
Proof.
  induction tr as [|e tr IH]; intros rest held H; [reflexivity|].
  destruct e; simpl in *; try discriminate; auto.
Qed.

(** Two well-bracketed pieces make a well-bracketed trace. *)
Lemma lock_ok_app : forall t1 t2 held,
  lock_ok held t1 = true -> lock_ok false t2 = true -> lock_ok held (t1 ++ t2) = true.
Proof.
  induction t1 as [|e t1 IH]; intros t2 held H1 H2.
  - destruct held; [discriminate | exact H2].
  - destruct e; simpl in *; auto;
      apply andb_true_iff in H1; destruct H1 as [Hh H1];
      rewrite Hh in *; simpl; auto.
Qed.

(** ** Model selection *)

Lemma contains_In : forall k ms, contains k ms = true <-> In k (keys ms).
Proof.
  intros k ms. unfold contains. rewrite existsb_exists. split.
  - intros [x [Hin Heq]]. apply String.eqb_eq in Heq. subst. exact Hin.
  - intros Hin. exists k. split; [exact Hin | apply String.eqb_refl].
Qed.

Lemma contains_lookup : forall k ms,
  contains k ms = true -> exists a, lookup k ms = Some a.
Proof.
  intros k ms. unfold contains, keys.
  induction ms as [|[k' a] ms IH]; simpl; [discriminate|].
  destruct (String.eqb k k'); simpl; eauto.
Qed.

(** Selection does not touch the handler and only logs. *)
Lemma select_model_run : forall cfg lang h,
  exists tr,
    select_model cfg lang h = (Returned (selected cfg lang), h, tr)
    /\ only_logs tr = true.
Proof.
  intros cfg lang h. unfold selected, select_model, getitem.
  destruct (String.eqb lang "en" && contains "en" (models cfg)) eqn:E1.
  - apply andb_true_iff in E1. destruct E1 as [_ E1].
    destruct (contains_lookup _ _ E1) as [a Ha]. rewrite Ha.
    eexists. split; reflexivity.
  - destruct (contains "multi" (models cfg)) eqn:E2.
    + destruct (contains_lookup _ _ E2) as [a Ha]. rewrite Ha.
      eexists. split; reflexivity.
    + destruct (contains "en" (models cfg)) eqn:E3.
      * destruct (contains_lookup _ _ E3) as [a Ha]. rewrite Ha.
        eexists. split; reflexivity.
      * eexists. split; reflexivity.
Qed.

Lemma selected_priority : forall cfg lang,
  option_map fst (selected cfg lang)
  = priority (String.eqb lang "en") (fun k => contains k (models cfg)).
Proof.
  intros cfg lang. unfold selected, select_model, getitem, priority.
  destruct (String.eqb lang "en" && contains "en" (models cfg)) eqn:E1.
  - apply andb_true_iff in E1. destruct E1 as [_ E1].
    destruct (contains_lookup _ _ E1) as [a Ha]. rewrite Ha. reflexivity.
  - destruct (contains "multi" (models cfg)) eqn:E2.
    + destruct (contains_lookup _ _ E2) as [a Ha]. rewrite Ha. reflexivity.
    + destruct (contains "en" (models cfg)) eqn:E3.
      * destruct (contains_lookup _ _ E3) as [a Ha]. rewrite Ha. reflexivity.
      * reflexivity.
Qed.

(** [lang == "en"] after [lang = self.request_language or "en"]. *)
Lemma py_or_english : forall requested,
  String.eqb (py_or requested "en") "en"
  = match requested with
    | None => true
    | Some l => String.eqb l "" || String.eqb l "en"
    end.
Proof.
  intros [[|a r]|]; reflexivity.
Qed.

Lemma priority_ext : forall b has has',
  (forall k, has k = has' k) -> priority b has = priority b has'.
Proof.
  intros b has has' H. unfold priority. rewrite !H. reflexivity.
Qed.

(** C1, amended: model selection is a function of the requested language and
    of the set of registry keys. If the request is ["en"], unset or the empty
    string (all three make [lang] equal to ["en"]) and an ["en"] entry exists,
    it is selected; else a ["multi"] entry if there is one; else an ["en"]
    entry if there is one; else nothing. The five listed cases hold. *)
Theorem model_selection_rule :
  (forall cfg requested,
     selected_key cfg requested
     = code_select requested (fun k => contains k (models cfg)))
  /\ (forall cfg cfg' requested,
        (forall k, In k (keys (models cfg)) <-> In k (keys (models cfg'))) ->
        selected_key cfg requested = selected_key cfg' requested)
  /\ (forall info prompt a,
        selected_key (mkConfig info (registry_of a ["en"]) prompt) (Some "en") = Some "en"
        /\ selected_key (mkConfig info (registry_of a ["en"; "multi"]) prompt) (Some "fr")
           = Some "multi"
        /\ selected_key (mkConfig info (registry_of a ["en"]) prompt) (Some "fr") = Some "en"
        /\ selected_key (mkConfig info (registry_of a ["multi"]) prompt) None = Some "multi"
        /\ selected_key (mkConfig info (registry_of a []) prompt) (Some "en") = None).
Proof.
  assert (Hrule : forall cfg requested,
             selected_key cfg requested
             = code_select requested (fun k => contains k (models cfg))).
  { intros cfg requested. unfold selected_key, code_select.
    rewrite selected_priority, py_or_english. reflexivity. }
  split; [exact Hrule|]. split.
  - intros cfg cfg' requested Hkeys. rewrite !Hrule. unfold code_select.
    apply priority_ext. intros k.
    destruct (contains k (models cfg)) eqn:E1, (contains k (models cfg')) eqn:E2;
      try reflexivity.
    + apply contains_In, Hkeys, contains_In in E1. congruence.
    + apply contains_In, Hkeys, contains_In in E2. congruence.
  - intros info prompt a. rewrite !Hrule. repeat split; reflexivity.
Qed.

(** The rule at two registries with the same keys in another order. *)
Lemma model_selection_rule_witness :
  selected_key (mkConfig "" [("en", says "a"); ("multi", fails "b")] None) (Some "de")
  = selected_key (mkConfig "" [("multi", says "c"); ("en", says "d")] (Some "p")) (Some "de").
Proof.
  apply (proj1 (proj2 model_selection_rule)).
  intros k. simpl. tauto.
Defined.

(** C1 as stated fails for the empty string: it is neither ["en"] nor unset,
    so the stated order selects ["multi"], but the code selects ["en"]. *)
Lemma empty_language_selects_english :
  selected_key (mkConfig "" (registry_of (says "") ["en"; "multi"]) None) (Some "")
  = Some "en"
  /\ spec_select (Some "") (fun k => contains k (registry_of (says "") ["en"; "multi"]))
     = Some "multi".
Proof.
  split; reflexivity.
Qed.

(** ** Running handler code *)

Lemma runs_bind : forall {S A B : Type} (m : M S A) (k : A -> M S B) s a s1 t1 r s2 t2,
  m s = (Returned a, s1, t1) ->
  k a s1 = (r, s2, t2) ->
  bind m k s = (r, s2, t1 ++ t2).
Proof.
  intros S A B m k s a s1 t1 r s2 t2 Hm Hk. unfold bind. rewrite Hm, Hk. reflexivity.
Qed.

Lemma runs_bind_raised : forall {S A B : Type} (m : M S A) (k : A -> M S B) s e s1 t1,
  m s = (Raised e, s1, t1) ->
  bind m k s = (Raised e, s1, t1).
Proof.
  intros S A B m k s e s1 t1 Hm. unfold bind. rewrite Hm. reflexivity.
Qed.

Lemma runs_lift : forall {S T A : Type} (proj : S -> T) (inj : T -> S -> S)
    (m : M T A) s r t tr,
  m (proj s) = (r, t, tr) -> lift proj inj m s = (r, inj t s, tr).
Proof.
  intros S T A proj inj m s r t tr Hm. unfold lift. rewrite Hm. reflexivity.
Qed.

Lemma runs_with_lock : forall {S A : Type} (body : M S A) s r s1 t1,
  body s = (r, s1, t1) -> with_lock body s = (r, s1, Acquire :: t1 ++ [Release]).
Proof.
  intros S A body s r s1 t1 Hb. unfold with_lock. rewrite Hb. reflexivity.
Qed.

Lemma runs_try_returned : forall {S A : Type} (body : M S A) handler s a s1 t1,
  body s = (Returned a, s1, t1) -> try_except body handler s = (Returned a, s1, t1).
Proof.
  intros S A body handler s a s1 t1 Hb. unfold try_except. rewrite Hb. reflexivity.
Qed.

Lemma runs_try_raised : forall {S A : Type} (body : M S A) handler s e s1 t1 r s2 t2,
  body s = (Raised e, s1, t1) ->
  handler e s1 = (r, s2, t2) ->
  try_except body handler s = (r, s2, t1 ++ t2).
Proof.
  intros S A body handler s e s1 t1 r s2 t2 Hb Hh. unfold try_except.
  rewrite Hb, Hh. reflexivity.
Qed.

Ltac run_step := eapply runs_bind; [ try reflexivity | cbv beta ].

Lemma recognize_text : forall {S : Type} k (a : AsrAdapter) w r l t (s : S),
  a w r l = Text t ->
  recognize k a w r l s = (Returned t, s, [Recognize k w r l]).
Proof.
  intros S k a w r l t s Ha. unfold recognize. rewrite Ha. reflexivity.
Qed.

Lemma recognize_raises : forall {S : Type} k (a : AsrAdapter) w r l msg (s : S),
  a w r l = Raises msg ->
  recognize (S := S) k a w r l s
  = (Raised (RecognizeError msg), s, [Recognize k w r l]).
Proof.
  intros S k a w r l msg s Ha. unfold recognize. rewrite Ha. reflexivity.
Qed.

(** ** The writer and the sink *)

Lemma writing_fields : forall w,
  writing w = true -> headerwritten w = true /\ closed w = false.
Proof.
  intros w H. unfold writing in H. apply andb_true_iff in H. destruct H as [H1 H2].
  split; [exact H1|]. destruct (closed w); [discriminate | reflexivity].
Qed.

Lemma writeframes_writing : forall data w,
  writing w = true ->
  writeframes data w
  = (None, opened (framerate w) (sampwidth w) (nchannels w) (frames w ++ data)).
Proof.
  intros data w H. destruct (writing_fields w H) as [Hh Hc].
  unfold writeframes, ensure_header_written, opened. rewrite Hh. cbn.
  rewrite Hc, Hh. reflexivity.
Qed.

Lemma writer_close_writing : forall w,
  writing w = true -> writer_close w = (None, sealed w).
Proof.
  intros w H. destruct (writing_fields w H) as [Hh Hc].
  unfold writer_close, ensure_header_written. rewrite Hc, Hh. cbn.
  unfold sealed. rewrite Hh. reflexivity.
Qed.

Lemma writing_opened : forall r n c bytes, writing (opened r n c bytes) = true.
Proof. reflexivity. Qed.

(** The exceptions of [writeframes]. *)
Lemma writeframes_exn : forall data w e w1,
  writeframes data w = (Some e, w1) ->
  e = WaveError \/ e = StructError \/ e = AttributeError.
Proof.
  intros data w e w1. unfold writeframes, ensure_header_written.
  destruct (headerwritten w); cbn.
  - destruct (closed w); intros H; inversion H; auto.
  - destruct (nchannels w =? 0); [intros H; inversion H; auto|].
    destruct (sampwidth w =? 0); [intros H; inversion H; auto|].
    destruct (framerate w =? 0); [intros H; inversion H; auto|].
    destruct (closed w) eqn:Hc; [intros H; inversion H; auto|].
    destruct (header_fits w); cbn; rewrite ?Hc; intros H; inversion H; auto.
Qed.

(** The exceptions of [Wave_write.close]. *)
Lemma writer_close_exn : forall w e w1,
  writer_close w = (Some e, w1) -> e = WaveError \/ e = StructError.
Proof.
  intros w e w1. unfold writer_close, ensure_header_written.
  destruct (closed w); [discriminate|].
  destruct (headerwritten w); [discriminate|].
  destruct (nchannels w =? 0); [intros H; inversion H; auto|].
  destruct (sampwidth w =? 0); [intros H; inversion H; auto|].
  destruct (framerate w =? 0); [intros H; inversion H; auto|].
  destruct (header_fits w); intros H; inversion H; auto.
Qed.

(** A first chunk: the writer is opened and configured, unless [wave]
    refuses the format. *)
Lemma buffer_chunk_closed : forall c d,
  buffer_chunk c (mkSink None d)
  = match chunk_refusal c with
    | None =>
        (Returned true,
         mkSink (Some (opened (rate c) (width c) (channels c) (audio c))) None, [])
    | Some e => (Raised e, mkSink (Some (refused c)) None, [])
    end.
Proof.
  intros [r n ch a] d.
  unfold buffer_chunk, chunk_refusal, refused, bind, gets, wave_open, modify,
    on_wav_file, ret, setframerate, setsampwidth, setnchannels, writeframes,
    ensure_header_written, header_fits, fresh_wave, datawritten.
  cbn [wav_file speech_wav rate width channels audio framerate sampwidth nchannels
       headerwritten closed frames length Nat.eqb negb app].
  destruct (r <=? 0) eqn:Er; cbn; [reflexivity|].
  destruct (n <? 1) eqn:En1; cbn; [reflexivity|].
  destruct (4 <? n) eqn:En4; cbn; [reflexivity|].
  destruct (ch <? 1) eqn:Ec; cbn; [reflexivity|].
  assert (Hch : (ch =? 0) = false) by (apply Z.eqb_neq; apply Z.ltb_ge in Ec; lia).
  assert (Hn : (n =? 0) = false) by (apply Z.eqb_neq; apply Z.ltb_ge in En1; lia).
  assert (Hr : (r =? 0) = false) by (apply Z.eqb_neq; apply Z.leb_gt in Er; lia).
  rewrite Hch, Hn, Hr.
  destruct (format_fits r n ch); reflexivity.
Qed.

(** A later chunk: its bytes are appended, its format is not looked at. *)
Lemma buffer_chunk_writing : forall c w d,
  writing w = true ->
  buffer_chunk c (mkSink (Some w) d)
  = (Returned true,
     mkSink (Some (opened (framerate w) (sampwidth w) (nchannels w) (frames w ++ audio c))) d,
     []).
Proof.
  intros c w d H.
  unfold buffer_chunk, bind, gets, ret, on_wav_file. cbn [wav_file speech_wav].
  rewrite (writeframes_writing (audio c) w H). reflexivity.
Qed.

Lemma buffer_chunk_open : forall c w d,
  buffer_chunk c (mkSink (Some w) d)
  = match writeframes (audio c) w with
    | (Some e, w1) => (Raised e, mkSink (Some w1) d, [])
    | (None, w1) => (Returned true, mkSink (Some w1) d, [])
    end.
Proof.
  intros c w d.
  unfold buffer_chunk, bind, gets, ret, on_wav_file. cbn [wav_file speech_wav].
  destruct (writeframes (audio c) w) as [[e|] w1]; reflexivity.
Qed.

Lemma chunk_refusal_exn : forall c e,
  chunk_refusal c = Some e -> e = WaveError \/ e = StructError.
Proof.
  intros c e. unfold chunk_refusal.
  destruct ((rate c <=? 0) || (width c <? 1) || (4 <? width c) || (channels c <? 1)).
  - intros H. inversion H. auto.
  - destruct (format_fits (rate c) (width c) (channels c)); intros H; inversion H. auto.
Qed.

(** Buffering never logs or writes, returns [True] if it returns, and raises
    only what [wave] raises. *)
Lemma buffer_chunk_quiet : forall c s,
  trace_of (buffer_chunk c s) = []
  /\ match value_of (buffer_chunk c s) with
     | Returned b => b = true
     | Raised e => e = WaveError \/ e = StructError \/ e = AttributeError
     end.
Proof.
  intros c [[w|] d].
  - rewrite buffer_chunk_open.
    destruct (writeframes (audio c) w) as [[e|] w1] eqn:Hw; cbn.
    + split; [reflexivity|]. eapply writeframes_exn. exact Hw.
    + split; reflexivity.
  - rewrite buffer_chunk_closed.
    destruct (chunk_refusal c) as [e|] eqn:Hc; cbn.
    + split; [reflexivity|]. destruct (chunk_refusal_exn c e Hc); auto.
    + split; reflexivity.
Qed.

(** The writer a refused chunk leaves cannot be closed: [close] raises the
    exception that refused the chunk. *)
Lemma refused_close : forall c e,
  chunk_refusal c = Some e -> fst (writer_close (refused c)) = Some e.
Proof.
  intros [r n ch a] e. unfold chunk_refusal, refused.
  cbn [rate width channels audio].
  destruct (r <=? 0) eqn:Er; cbn; [intros H; inversion H; reflexivity|].
  destruct (n <? 1) eqn:En1; cbn; [intros H; inversion H; reflexivity|].
  destruct (4 <? n) eqn:En4; cbn; [intros H; inversion H; reflexivity|].
  destruct (ch <? 1) eqn:Ec; cbn; [intros H; inversion H; reflexivity|].
  assert (Hch : (ch =? 0) = false) by (apply Z.eqb_neq; apply Z.ltb_ge in Ec; lia).
  assert (Hn : (n =? 0) = false) by (apply Z.eqb_neq; apply Z.ltb_ge in En1; lia).
  assert (Hr : (r =? 0) = false) by (apply Z.eqb_neq; apply Z.leb_gt in Er; lia).
  unfold writer_close, ensure_header_written, header_fits.
  cbn [framerate sampwidth nchannels headerwritten closed frames].
  rewrite Hch, Hn, Hr.
  destruct (format_fits r n ch); cbn; intros H; inversion H; reflexivity.
Qed.


Section Reading.

Variable lib : Libraries.

(** Closing a writer that takes frames leaves its container on disk; the
    read succeeds if libsndfile opens it. *)
Lemma finalize_writing : forall w d,
  writing w = true ->
  finalize_and_read lib (mkSink (Some w) d)
  = if sf_can_open lib (sealed w)
    then (Returned (waveform_of lib (sealed w), framerate w),
          mkSink None (Some (sealed w)), [])
    else (Raised LibsndfileError, mkSink None (Some (sealed w)), []).
Proof.
  intros w d H. destruct (writing_fields w H) as [Hh Hc].
  unfold finalize_and_read, bind, wave_close, modify, sf_read_path, ret.
  cbn [wav_file speech_wav]. rewrite (writer_close_writing w H), Hc.
  cbn [speech_wav].
  destruct (sf_can_open lib (sealed w)); reflexivity.
Qed.

Lemma make_mono_rank : forall a, shape_len (make_mono lib a) = 1.
Proof.
  intros [samples|rows]; reflexivity.
Qed.

(** Closing and reading never logs or writes; what it returns is of rank one
    and it leaves no writer. *)
Lemma finalize_cases : forall s,
  (exists e s1, finalize_and_read lib s = (Raised e, s1, []))
  \/ (exists wf r s1 file,
        finalize_and_read lib s = (Returned (wf, r), s1, [])
        /\ shape_len wf = 1
        /\ s1 = mkSink None (Some file)).
Proof.
  intros [[w|] d]; unfold finalize_and_read, bind, wave_close, modify, sf_read_path, ret;
    cbn [wav_file speech_wav].
  - destruct (writer_close w) as [[e|] w1]; [left; eauto|].
    cbn [speech_wav].
    destruct (if closed w then d else Some w1) as [file|]; [|left; eauto].
    destruct (sf_can_open lib file); [|left; eauto].
    right. do 4 eexists. split; [reflexivity|]. split; [apply make_mono_rank | reflexivity].
  - left. eauto.
Qed.

(** The exceptions of closing and reading. *)
Lemma finalize_exn : forall s e s1 tr,
  finalize_and_read lib s = (Raised e, s1, tr) ->
  e = WaveError \/ e = StructError \/ e = AttributeError \/ e = LibsndfileError.
Proof.
  intros [[w|] d] e s1 tr;
    unfold finalize_and_read, bind, wave_close, modify, sf_read_path, ret;
    cbn [wav_file speech_wav].
  - destruct (writer_close w) as [[x|] w1] eqn:Hc.
    + intros H. inversion H; subst.
      destruct (writer_close_exn w e w1 Hc); auto.
    + cbn [speech_wav].
      destruct (if closed w then d else Some w1) as [file|]; [|intros H; inversion H; auto].
      destruct (sf_can_open lib file); intros H; inversion H; auto.
  - intros H. inversion H; auto.
Qed.

(** From a sink in good order only libsndfile can stop the reading. *)
Lemma finalize_healthy : forall s e s1 tr,
  healthy s = true ->
  finalize_and_read lib s = (Raised e, s1, tr) ->
  (wav_file s = None /\ e = AttributeError /\ s1 = s)
  \/ (e = LibsndfileError /\ wav_file s1 = None).
Proof.
  intros [[w|] d] e s1 tr Hh Hrun; cbn in Hh.
  - rewrite (finalize_writing w d Hh) in Hrun.
    destruct (sf_can_open lib (sealed w)); inversion Hrun; subst. right. split; reflexivity.
  - cbn in Hrun. inversion Hrun; subst. left. repeat split; reflexivity.
Qed.

End Reading.

(** ** Running [AudioStop] *)

Lemma transcribe_locked_text : forall k (a : AsrAdapter) w r l t h,
  a w r l = Text t ->
  exists m1 m2,
    transcribe_locked k a w r l h
    = (Returned (inl t), h,
       [Acquire; Log lvl_info m1; Recognize k w r l; Log lvl_info m2; Release]).
Proof.
  intros k a w r l t h Ha. do 2 eexists. unfold transcribe_locked.
  eapply eq_trans.
  { apply runs_with_lock, runs_try_returned.
    run_step. run_step. { apply recognize_text. exact Ha. }
    run_step. reflexivity. }
  reflexivity.
Qed.

Lemma transcribe_locked_raises : forall k (a : AsrAdapter) w r l msg h,
  a w r l = Raises msg ->
  exists m1 m2,
    transcribe_locked k a w r l h
    = (Returned (inr false), h,
       [Acquire; Log lvl_info m1; Recognize k w r l; Log lvl_error m2;
        Sent (Transcript ("ERROR: " ++ ("Transcription failed: " ++ msg))%string);
        Release]).
Proof.
  intros k a w r l msg h Ha. do 2 eexists. unfold transcribe_locked.
  eapply eq_trans.
  { apply runs_with_lock. eapply runs_try_raised.
    - run_step. eapply runs_bind_raised. apply recognize_raises. exact Ha.
    - reflexivity. }
  reflexivity.
Qed.

Section Runs.

Variable lib : Libraries.
Variable py_repr : list string -> string.

Lemma report_no_model_run : forall cfg h,
  exists logs msg,
    report_no_model py_repr cfg h
    = (Returned false, h, logs ++ [Sent (Transcript ("ERROR: " ++ msg)%string)])
    /\ only_logs logs = true.
Proof.
  intros cfg h. unfold report_no_model.
  destruct (truthy (request_language h)) eqn:E.
  - exists [Log lvl_error ("Language '" ++ py_str (request_language h)
                           ++ "' requested but no suitable model is available")%string;
            Log lvl_error ("Available models: " ++ py_repr (keys (models cfg)))%string].
    eexists. split; [|reflexivity].
    unfold bind, gets, log, emit, ret, write_event. rewrite E. reflexivity.
  - exists [Log lvl_error "No ASR model loaded - server misconfiguration"].
    eexists. split; [|reflexivity].
    unfold bind, gets, log, emit, ret, write_event. rewrite E. reflexivity.
Qed.

(** [AudioStop] with no open sink: the assertion fails after the debug record. *)
Lemma stop_assert : forall cfg h,
  wav_file (wav h) = None ->
  handle_event lib py_repr cfg AudioStop h
  = (Raised AssertionError, h,
     [Log lvl_debug ("Audio stopped. Transcribing with initial prompt="
                     ++ py_str (initial_prompt cfg))%string]).
Proof.
  intros cfg h Hw. unfold handle_event.
  eapply eq_trans.
  { run_step. run_step. rewrite Hw. apply runs_bind_raised. reflexivity. }
  reflexivity.
Qed.

(** [AudioStop] when the recording cannot be closed or read: the exception
    leaves [handle_event] after the debug record. *)
Lemma stop_read_raises : forall cfg h w e s1,
  wav_file (wav h) = Some w ->
  finalize_and_read lib (wav h) = (Raised e, s1, []) ->
  handle_event lib py_repr cfg AudioStop h
  = (Raised e, mkHandler (request_language h) s1,
     [Log lvl_debug ("Audio stopped. Transcribing with initial prompt="
                     ++ py_str (initial_prompt cfg))%string]).
Proof.
  intros cfg h w e s1 Hw Hfin. unfold handle_event.
  eapply eq_trans.
  { run_step. run_step. rewrite Hw. run_step.
    apply runs_bind_raised. apply runs_lift. exact Hfin. }
  reflexivity.
Qed.

(** The common start of an [AudioStop] whose recording was read, up to the
    choice of the model. *)
Lemma stop_open : forall cfg h w wf r s1,
  wav_file (wav h) = Some w ->
  finalize_and_read lib (wav h) = (Returned (wf, r), s1, []) ->
  exists logs,
    only_logs logs = true
    /\ forall res h' tr,
         match selected cfg (py_or (request_language h) "en") with
         | None => report_no_model py_repr cfg
         | Some (key, adapter) =>
             r0 <- transcribe_locked key adapter wf r
                     (py_or (request_language h) "en") ;;
             match r0 with
             | inr b => ret b
             | inl text =>
                 log lvl_info (py_or (request_language h) "en" ++ ":" ++ text)%string ;;
                 write_event (Transcript text) ;;
                 log lvl_debug "Completed request" ;;
                 set_request_language None ;;
                 ret false
             end
         end (mkHandler (request_language h) s1) = (res, h', tr) ->
         handle_event lib py_repr cfg AudioStop h = (res, h', logs ++ tr).
Proof.
  intros cfg h w wf r s1 Hw Hfin.
  destruct (select_model_run cfg (py_or (request_language h) "en")
              (mkHandler (request_language h) s1))
    as [trs [Hsel Hlogs]].
  exists ([Log lvl_debug ("Audio stopped. Transcribing with initial prompt="
                          ++ py_str (initial_prompt cfg))%string;
           Log lvl_info ("Language requested: " ++ py_or (request_language h) "en")%string;
           Log lvl_info ("Available models: " ++ py_repr (keys (models cfg)))%string]
          ++ trs).
  split.
  - simpl. exact Hlogs.
  - intros res h' tr Hrest. unfold handle_event.
    eapply eq_trans.
    { run_step. run_step. rewrite Hw. run_step.
      run_step. { apply runs_lift. exact Hfin. }
      run_step. run_step. run_step.
      run_step. { exact Hsel. }
      exact Hrest. }
    cbn [app]. reflexivity.
Qed.

Lemma stop_no_model : forall cfg h w wf r s1,
  wav_file (wav h) = Some w ->
  finalize_and_read lib (wav h) = (Returned (wf, r), s1, []) ->
  selected cfg (py_or (request_language h) "en") = None ->
  exists logs msg,
    only_logs logs = true
    /\ handle_event lib py_repr cfg AudioStop h
       = (Returned false, mkHandler (request_language h) s1,
          logs ++ [Sent (Transcript ("ERROR: " ++ msg)%string)]).
Proof.
  intros cfg h w wf r s1 Hw Hfin Hsel.
  destruct (stop_open cfg h w wf r s1 Hw Hfin) as [logs [Hlogs Hrun]].
  destruct (report_no_model_run cfg (mkHandler (request_language h) s1))
    as [logs' [msg [Hrep Hlogs']]].
  exists (logs ++ logs'), msg. split.
  - unfold only_logs in *. rewrite forallb_app, Hlogs, Hlogs'. reflexivity.
  - rewrite <- app_assoc. apply Hrun. rewrite Hsel. exact Hrep.
Qed.

Lemma stop_text : forall cfg h w wf r s1 k a t,
  wav_file (wav h) = Some w ->
  finalize_and_read lib (wav h) = (Returned (wf, r), s1, []) ->
  selected cfg (py_or (request_language h) "en") = Some (k, a) ->
  a wf r (py_or (request_language h) "en") = Text t ->
  exists logs m1 m2 m3,
    only_logs logs = true
    /\ handle_event lib py_repr cfg AudioStop h
       = (Returned false, mkHandler None s1,
          logs ++ [Acquire; Log lvl_info m1;
                   Recognize k wf r (py_or (request_language h) "en");
                   Log lvl_info m2; Release; Log lvl_info m3;
                   Sent (Transcript t); Log lvl_debug "Completed request"]).
Proof.
  intros cfg h w wf r s1 k a t Hw Hfin Hsel Ha.
  destruct (stop_open cfg h w wf r s1 Hw Hfin) as [logs [Hlogs Hrun]].
  destruct (transcribe_locked_text k a _ _ _ t (mkHandler (request_language h) s1) Ha)
    as [m1 [m2 Hlock]].
  exists logs, m1, m2. eexists. split; [exact Hlogs|].
  apply Hrun. rewrite Hsel.
  eapply eq_trans.
  { run_step. { exact Hlock. } reflexivity. }
  reflexivity.
Qed.

Lemma stop_raises : forall cfg h w wf r s1 k a msg,
  wav_file (wav h) = Some w ->
  finalize_and_read lib (wav h) = (Returned (wf, r), s1, []) ->
  selected cfg (py_or (request_language h) "en") = Some (k, a) ->
  a wf r (py_or (request_language h) "en") = Raises msg ->
  exists logs m1 m2,
    only_logs logs = true
    /\ handle_event lib py_repr cfg AudioStop h
       = (Returned false, mkHandler (request_language h) s1,
          logs ++ [Acquire; Log lvl_info m1;
                   Recognize k wf r (py_or (request_language h) "en");
                   Log lvl_error m2;
                   Sent (Transcript ("ERROR: " ++ ("Transcription failed: " ++ msg))%string);
                   Release]).
Proof.
  intros cfg h w wf r s1 k a msg Hw Hfin Hsel Ha.
  destruct (stop_open cfg h w wf r s1 Hw Hfin) as [logs [Hlogs Hrun]].
  destruct (transcribe_locked_raises k a _ _ _ msg (mkHandler (request_language h) s1) Ha)
    as [m1 [m2 Hlock]].
  exists logs, m1, m2. split; [exact Hlogs|].
  apply Hrun. rewrite Hsel.
  eapply eq_trans.
  { run_step. { exact Hlock. } reflexivity. }
  reflexivity.
Qed.

Lemma empty_registry_selects_nothing : forall cfg lang,
  models cfg = [] -> selected cfg lang = None.
Proof.
  intros cfg lang Hm. unfold selected, select_model, contains. rewrite Hm. simpl.
  rewrite andb_false_r. reflexivity.
Qed.

(** What every [AudioStop] does once its recording was read, whatever comes
    of the model. *)
Lemma stop_summary : forall cfg h w wf r s1,
  wav_file (wav h) = Some w ->
  finalize_and_read lib (wav h) = (Returned (wf, r), s1, []) ->
  exists h' tr text,
    handle_event lib py_repr cfg AudioStop h = (Returned false, h', tr)
    /\ wav h' = s1
    /\ recognize_calls tr
       = match selected cfg (py_or (request_language h) "en") with
         | Some (k, _) => [(k, wf, r, py_or (request_language h) "en")]
         | None => []
         end
    /\ sent tr = [Transcript text]
    /\ lock_ok false tr = true.
Proof.
  intros cfg h w wf r s1 Hw Hfin.
  destruct (selected cfg (py_or (request_language h) "en")) as [[k a]|] eqn:Hsel.
  - destruct (a wf r (py_or (request_language h) "en")) as [t|msg] eqn:Ha.
    + destruct (stop_text cfg h w wf r s1 k a t Hw Hfin Hsel Ha)
        as [logs [m1 [m2 [m3 [Hlogs Hrun]]]]].
      do 3 eexists. split; [exact Hrun|]. split; [reflexivity|]. split; [|split].
      * rewrite recognize_calls_app, (only_logs_calls _ Hlogs). reflexivity.
      * rewrite sent_app, (only_logs_sent _ Hlogs). reflexivity.
      * rewrite lock_ok_logs by exact Hlogs. reflexivity.
    + destruct (stop_raises cfg h w wf r s1 k a msg Hw Hfin Hsel Ha)
        as [logs [m1 [m2 [Hlogs Hrun]]]].
      do 3 eexists. split; [exact Hrun|]. split; [reflexivity|]. split; [|split].
      * rewrite recognize_calls_app, (only_logs_calls _ Hlogs). reflexivity.
      * rewrite sent_app, (only_logs_sent _ Hlogs). reflexivity.
      * rewrite lock_ok_logs by exact Hlogs. reflexivity.
  - destruct (stop_no_model cfg h w wf r s1 Hw Hfin Hsel) as [logs [msg [Hlogs Hrun]]].
    do 3 eexists. split; [exact Hrun|]. split; [reflexivity|]. split; [|split].
    + rewrite recognize_calls_app, (only_logs_calls _ Hlogs). reflexivity.
    + rewrite sent_app, (only_logs_sent _ Hlogs). reflexivity.
    + rewrite lock_ok_logs by exact Hlogs. reflexivity.
Qed.

(** A recording that reads back. *)
Lemma finalize_reads_back : forall h w,
  wav_file (wav h) = Some w ->
  reads_back lib w = true ->
  finalize_and_read lib (wav h)
  = (Returned (waveform_of lib (sealed w), framerate w), mkSink None (Some (sealed w)), []).
Proof.
  intros [rl [f d]] w Hw Hr. cbn in Hw. subst f. cbn [wav].
  unfold reads_back in Hr. apply andb_true_iff in Hr. destruct Hr as [Hr Hopen].
  apply andb_true_iff in Hr. destruct Hr as [Hwr _].
  rewrite (finalize_writing lib w d Hwr), Hopen. reflexivity.
Qed.

(** The two ways an [AudioStop] with a writer can go. *)
Lemma stop_cases : forall cfg h w,
  wav_file (wav h) = Some w ->
  (exists e s1,
     finalize_and_read lib (wav h) = (Raised e, s1, [])
     /\ handle_event lib py_repr cfg AudioStop h
        = (Raised e, mkHandler (request_language h) s1,
           [Log lvl_debug ("Audio stopped. Transcribing with initial prompt="
                           ++ py_str (initial_prompt cfg))%string]))
  \/ (exists wf r s1 file h' tr text,
        finalize_and_read lib (wav h) = (Returned (wf, r), s1, [])
        /\ shape_len wf = 1
        /\ s1 = mkSink None (Some file)
        /\ handle_event lib py_repr cfg AudioStop h = (Returned false, h', tr)
        /\ wav h' = s1
        /\ recognize_calls tr
           = match selected cfg (py_or (request_language h) "en") with
             | Some (k, _) => [(k, wf, r, py_or (request_language h) "en")]
             | None => []
             end
        /\ sent tr = [Transcript text]
        /\ lock_ok false tr = true).
Proof.
  intros cfg h w Hw.
  destruct (finalize_cases lib (wav h))
    as [[e [s1 Hfin]] | [wf [r [s1 [file [Hfin [Hrank Hs1]]]]]]].
  - left. exists e, s1. split; [exact Hfin|]. eapply stop_read_raises; eassumption.
  - right.
    destruct (stop_summary cfg h w wf r s1 Hw Hfin)
      as [h' [tr [text [Hrun [Hwav [Hcalls [Hsent Hok]]]]]]].
    exists wf, r, s1, file, h', tr, text. repeat split; assumption.
Qed.

End Runs.

(** ** Feeding events *)

Lemma writing_eta : forall w,
  writing w = true -> w = opened (framerate w) (sampwidth w) (nchannels w) (frames w).
Proof.
  intros [r n c hw cl fr] H. cbn in H. destruct hw, cl; try discriminate. reflexivity.
Qed.

Section Feeding.

Variable lib : Libraries.
Variable py_repr : list string -> string.

Lemma chunk_run : forall cfg c h,
  handle_event lib py_repr cfg (AudioChunk c) h
  = (value_of (buffer_chunk c (wav h)),
     mkHandler (request_language h) (write_chunk c (wav h)), []).
Proof.
  intros cfg c h. unfold handle_event, on_sink, lift, write_chunk.
  destruct (buffer_chunk_quiet c (wav h)) as [Ht _].
  destruct (buffer_chunk c (wav h)) as [[v s1] t]. cbn in Ht. subst t. reflexivity.
Qed.

(** The first chunk of an utterance in a format that [wave] accepts. *)
Lemma chunk_first : forall cfg c h,
  wav_file (wav h) = None ->
  wave_accepts c = true ->
  handle_event lib py_repr cfg (AudioChunk c) h
  = (Returned true,
     mkHandler (request_language h)
       (mkSink (Some (opened (rate c) (width c) (channels c) (audio c))) None), []).
Proof.
  intros cfg c [rl [f d]] Hw Hacc. cbn in Hw. subst f.
  rewrite chunk_run. unfold write_chunk. cbn [wav request_language].
  rewrite buffer_chunk_closed. unfold wave_accepts in Hacc.
  destruct (chunk_refusal c); [discriminate | reflexivity].
Qed.

(** The first chunk of an utterance in a format that [wave] refuses. *)
Lemma chunk_refused : forall cfg c h e,
  wav_file (wav h) = None ->
  chunk_refusal c = Some e ->
  handle_event lib py_repr cfg (AudioChunk c) h
  = (Raised e, mkHandler (request_language h) (mkSink (Some (refused c)) None), []).
Proof.
  intros cfg c [rl [f d]] e Hw Href. cbn in Hw. subst f.
  rewrite chunk_run. unfold write_chunk. cbn [wav request_language].
  rewrite buffer_chunk_closed, Href. reflexivity.
Qed.

(** A chunk into a writer that takes frames. *)
Lemma chunk_more : forall cfg c rl w d,
  writing w = true ->
  handle_event lib py_repr cfg (AudioChunk c) (mkHandler rl (mkSink (Some w) d))
  = (Returned true,
     mkHandler rl
       (mkSink (Some (opened (framerate w) (sampwidth w) (nchannels w)
                        (frames w ++ audio c))) d), []).
Proof.
  intros cfg c rl w d Hw.
  rewrite chunk_run. unfold write_chunk. cbn [wav request_language].
  rewrite (buffer_chunk_writing c w d Hw). reflexivity.
Qed.

Lemma transcribe_run : forall cfg l h,
  handle_event lib py_repr cfg (Transcribe l) h = (Returned true, mkHandler l (wav h), []).
Proof. reflexivity. Qed.

Lemma describe_run : forall cfg h,
  handle_event lib py_repr cfg Describe h
  = (Returned true, h,
     [Sent (InfoEvent (wyoming_info_event cfg)); Log lvl_debug "Sent info"]).
Proof. reflexivity. Qed.

Lemma other_run : forall cfg t h,
  handle_event lib py_repr cfg (OtherEvent t) h = (Returned true, h, []).
Proof. reflexivity. Qed.

Lemma feed_cons : forall cfg e rest h b h1 t1 bs h2 t2,
  handle_event lib py_repr cfg e h = (Returned b, h1, t1) ->
  feed lib py_repr cfg rest h1 = (Returned bs, h2, t2) ->
  feed lib py_repr cfg (e :: rest) h = (Returned (b :: bs), h2, t1 ++ t2).
Proof.
  intros cfg e rest h b h1 t1 bs h2 t2 He Hrest. cbn [feed].
  eapply eq_trans.
  { run_step. { exact He. } run_step. { exact Hrest. } reflexivity. }
  rewrite app_nil_r. reflexivity.
Qed.

Lemma feed_raised : forall cfg e rest h x h1 t1,
  handle_event lib py_repr cfg e h = (Raised x, h1, t1) ->
  feed lib py_repr cfg (e :: rest) h = (Raised x, h1, t1).
Proof.
  intros cfg e rest h x h1 t1 He. cbn [feed]. unfold bind. rewrite He. reflexivity.
Qed.

Lemma feed_app : forall cfg es1 es2 h bs1 h1 t1 bs2 h2 t2,
  feed lib py_repr cfg es1 h = (Returned bs1, h1, t1) ->
  feed lib py_repr cfg es2 h1 = (Returned bs2, h2, t2) ->
  feed lib py_repr cfg (es1 ++ es2) h = (Returned (bs1 ++ bs2), h2, t1 ++ t2).
Proof.
  intros cfg es1. induction es1 as [|e es1 IH];
    intros es2 h bs1 h1 t1 bs2 h2 t2 H1 H2.
  - cbn in H1. inversion H1; subst. exact H2.
  - cbn [feed] in H1. unfold bind in H1.
    destruct (handle_event lib py_repr cfg e h) as [[[b|x] h0] t0] eqn:He; [|discriminate].
    destruct (feed lib py_repr cfg es1 h0) as [[[bs|x] h3] t3] eqn:Hf; [|discriminate].
    cbn in H1. inversion H1; subst. rewrite app_nil_r.
    cbn [app]. rewrite <- app_assoc.
    eapply feed_cons; [exact He|].
    eapply IH; [exact Hf | exact H2].
Qed.


(** One event fed alone. *)
Lemma feed_one : forall cfg e h,
  state_of (feed lib py_repr cfg [e] h) = state_of (handle_event lib py_repr cfg e h)
  /\ trace_of (feed lib py_repr cfg [e] h) = trace_of (handle_event lib py_repr cfg e h)
  /\ exn_of (value_of (feed lib py_repr cfg [e] h))
     = exn_of (value_of (handle_event lib py_repr cfg e h)).
Proof.
  intros cfg e h. cbn [feed]. unfold bind.
  destruct (handle_event lib py_repr cfg e h) as [[[b|x] h1] t1]; cbn;
    rewrite ?app_nil_r; repeat split; reflexivity.
Qed.

(** Chunks into a writer that takes frames: all are appended. *)
Lemma feed_chunks_writing : forall cfg cs rl w d,
  writing w = true ->
  feed lib py_repr cfg (map AudioChunk cs) (mkHandler rl (mkSink (Some w) d))
  = (Returned (map (fun _ => true) cs),
     mkHandler rl
       (mkSink (Some (opened (framerate w) (sampwidth w) (nchannels w)
                        (frames w ++ concat (map audio cs)))) d), []).
Proof.
  intros cfg cs. induction cs as [|c cs IH]; intros rl w d Hw.
  - cbn. rewrite app_nil_r, <- (writing_eta w Hw). reflexivity.
  - cbn [map concat].
    eapply eq_trans.
    { eapply feed_cons; [apply chunk_more; exact Hw|].
      apply IH. reflexivity. }
    cbn. rewrite <- app_assoc. reflexivity.
Qed.

(** Chunks into a handler with no open sink, the first in a format that
    [wave] accepts: the writer holds the first chunk's format and the bytes of
    all, in order. *)
Lemma feed_chunks_closed : forall cfg c cs h,
  wav_file (wav h) = None ->
  wave_accepts c = true ->
  feed lib py_repr cfg (map AudioChunk (c :: cs)) h
  = (Returned (map (fun _ => true) (c :: cs)),
     mkHandler (request_language h)
       (mkSink (Some (opened (rate c) (width c) (channels c)
                        (concat (map audio (c :: cs))))) None), []).
Proof.
  intros cfg c cs h Hw Hacc. cbn [map].
  eapply eq_trans.
  { eapply feed_cons; [apply chunk_first; assumption|].
    apply feed_chunks_writing. reflexivity. }
  reflexivity.
Qed.

(** The recording of such chunks, stopped. *)
Lemma finalize_recording : forall c cs,
  recordable lib c cs = true ->
  let file := container (rate c) (width c) (channels c) (concat (map audio (c :: cs))) in
  finalize_and_read lib
    (mkSink (Some (opened (rate c) (width c) (channels c)
                     (concat (map audio (c :: cs))))) None)
  = (Returned (waveform_of lib file, rate c), mkSink None (Some file), []).
Proof.
  intros c cs Hrec file. unfold recordable in Hrec.
  apply andb_true_iff in Hrec. destruct Hrec as [_ Hopen].
  rewrite finalize_writing by reflexivity.
  change (sealed (opened (rate c) (width c) (channels c) (concat (map audio (c :: cs)))))
    with (container (rate c) (width c) (channels c) (concat (map audio (c :: cs)))).
  rewrite Hopen. reflexivity.
Qed.

Lemma recordable_accepts : forall c cs, recordable lib c cs = true -> wave_accepts c = true.
Proof.
  intros c cs H. unfold recordable in H.
  apply andb_true_iff in H. destruct H as [H _].
  apply andb_true_iff in H. destruct H as [H _]. exact H.
Qed.

End Feeding.

(** ** The older handler *)

Section Older.

Variable lib : Libraries.

Lemma nemo_stop_without_sink : forall cfg s,
  wav_file s = None ->
  Nemo.handle_event lib cfg AudioStop s
  = (Raised AssertionError, s,
     [Log lvl_debug ("Audio stopped. Transcribing with initial prompt="
                     ++ py_str (Nemo.initial_prompt cfg))%string]).
Proof.
  intros cfg [f d] Hw. cbn in Hw. subst f. reflexivity.
Qed.

(** [AudioStop] with a writer, by what closing and reading gives. The older
    handler has no [try]: an exception of [recognize] leaves [handle_event],
    after the lock is released and with nothing written. *)
Lemma nemo_stop_run : forall cfg s w,
  wav_file s = Some w ->
  Nemo.handle_event lib cfg AudioStop s
  = match finalize_and_read lib s with
    | (Raised e, s1, _) =>
        (Raised e, s1,
         Log lvl_debug ("Audio stopped. Transcribing with initial prompt="
                        ++ py_str (Nemo.initial_prompt cfg))%string
         :: match fst (writer_close w) with
            | Some _ => []
            | None => [Printed (Nemo.wav_path cfg)]
            end)
    | (Returned (wf, r), s1, _) =>
        match Nemo.model cfg wf r "en" with
        | Text t =>
            (Returned false, s1,
             [Log lvl_debug ("Audio stopped. Transcribing with initial prompt="
                             ++ py_str (Nemo.initial_prompt cfg))%string;
              Printed (Nemo.wav_path cfg);
              Acquire; Recognize "model" wf r "en"; Release;
              Log lvl_info t; Sent (Transcript t); Log lvl_debug "Completed request"])
        | Raises msg =>
            (Raised (RecognizeError msg), s1,
             [Log lvl_debug ("Audio stopped. Transcribing with initial prompt="
                             ++ py_str (Nemo.initial_prompt cfg))%string;
              Printed (Nemo.wav_path cfg);
              Acquire; Recognize "model" wf r "en"; Release])
        end
    end.
Proof.
  intros cfg [f d] w Hw. cbn in Hw. subst f.
  unfold Nemo.handle_event, finalize_and_read, bind, log, emit, gets, ret, wave_close,
    modify, sf_read_path, with_lock, recognize, write_event.
  cbn [wav_file speech_wav].
  destruct (writer_close w) as [[e|] w1]; [reflexivity|].
  cbn [fst speech_wav wav_file].
  destruct (if closed w then d else Some w1) as [file|]; [|reflexivity].
  destruct (sf_can_open lib file); [|reflexivity].
  cbn [fst snd].
  destruct (Nemo.model cfg (make_mono lib (fst (sf_read lib file))) (snd (sf_read lib file)) "en");
    reflexivity.
Qed.

(** The older handler parses a [Transcribe] event and drops it. *)
Lemma nemo_transcribe_ignored : forall cfg l s,
  Nemo.handle_event lib cfg (Transcribe l) s = (Returned true, s, []).
Proof. reflexivity. Qed.

Lemma nemo_chunk_run : forall cfg c s,
  Nemo.handle_event lib cfg (AudioChunk c) s = buffer_chunk c s.
Proof. reflexivity. Qed.

(** What one event of the older handler does to the lock, the client and
    the model. *)
Lemma nemo_event_summary : forall cfg e s,
  exists v s1 tr,
    Nemo.handle_event lib cfg e s = (v, s1, tr)
    /\ lock_ok false tr = true
    /\ forallb (fun c => String.eqb (snd c) "en" && (shape_len (snd (fst (fst c))) =? 1))
         (recognize_calls tr) = true.
Proof.
  intros cfg e s. destruct e as [c| |l| |t];
    try (do 3 eexists; split; [reflexivity|]; split; reflexivity).
  - rewrite nemo_chunk_run. destruct (buffer_chunk_quiet c s) as [Ht _].
    destruct (buffer_chunk c s) as [[v s1] tr]. cbn in Ht. subst tr.
    do 3 eexists. split; [reflexivity|]. split; reflexivity.
  - destruct (wav_file s) as [w|] eqn:Hw.
    + rewrite (nemo_stop_run cfg s w Hw).
      destruct (finalize_cases lib s)
        as [[e [s1 Hfin]] | [wf [r [s1 [file [Hfin [Hrank Hs1]]]]]]]; rewrite Hfin.
      * do 3 eexists. split; [reflexivity|].
        destruct (fst (writer_close w)); split; reflexivity.
      * destruct (Nemo.model cfg wf r "en") as [t|msg];
          do 3 eexists; (split; [reflexivity|]); (split; [reflexivity|]);
          cbn; rewrite Hrank; reflexivity.
    + rewrite (nemo_stop_without_sink cfg s Hw).
      do 3 eexists. split; [reflexivity|]. split; reflexivity.
Qed.

Lemma nemo_lock_ok : forall cfg e s,
  lock_ok false (trace_of (Nemo.handle_event lib cfg e s)) = true.
Proof.
  intros cfg e s. destruct (nemo_event_summary cfg e s) as [v [s1 [tr [Hrun [Hok _]]]]].
  rewrite Hrun. exact Hok.
Qed.

Lemma nemo_event_calls : forall cfg e s,
  forallb (fun c => String.eqb (snd c) "en" && (shape_len (snd (fst (fst c))) =? 1))
    (recognize_calls (trace_of (Nemo.handle_event lib cfg e s))) = true.
Proof.
  intros cfg e s. destruct (nemo_event_summary cfg e s) as [v [s1 [tr [Hrun [_ Hc]]]]].
  rewrite Hrun. exact Hc.
Qed.

Lemma nemo_feed_lock_ok : forall cfg evs s,
  lock_ok false (trace_of (nemo_feed lib cfg evs s)) = true.
Proof.
  intros cfg evs. induction evs as [|e evs IH]; intros s; [reflexivity|].
  pose proof (nemo_lock_ok cfg e s) as He.
  cbn [nemo_feed]. unfold bind.
  destruct (Nemo.handle_event lib cfg e s) as [[[b|x] s1] t1]; [|exact He].
  pose proof (IH s1) as Hrest.
  destruct (nemo_feed lib cfg evs s1) as [[[bs|x] s2] t2];
    cbn [trace_of snd ret] in *; rewrite ?app_nil_r; apply lock_ok_app; assumption.
Qed.

Lemma nemo_feed_cons : forall cfg e rest s b s1 t1 bs s2 t2,
  Nemo.handle_event lib cfg e s = (Returned b, s1, t1) ->
  nemo_feed lib cfg rest s1 = (Returned bs, s2, t2) ->
  nemo_feed lib cfg (e :: rest) s = (Returned (b :: bs), s2, t1 ++ t2).
Proof.
  intros cfg e rest s b s1 t1 bs s2 t2 He Hrest. cbn [nemo_feed]. unfold bind.
  rewrite He, Hrest. cbn. rewrite app_nil_r. reflexivity.
Qed.

Lemma nemo_feed_chunks_writing : forall cfg cs w d,
  writing w = true ->
  nemo_feed lib cfg (map AudioChunk cs) (mkSink (Some w) d)
  = (Returned (map (fun _ => true) cs),
     mkSink (Some (opened (framerate w) (sampwidth w) (nchannels w)
                     (frames w ++ concat (map audio cs)))) d, []).
Proof.
  intros cfg cs. induction cs as [|c cs IH]; intros w d Hw.
  - cbn. rewrite app_nil_r, <- (writing_eta w Hw). reflexivity.
  - cbn [map concat].
    eapply eq_trans.
    { eapply nemo_feed_cons.
      - rewrite nemo_chunk_run. apply buffer_chunk_writing. exact Hw.
      - apply IH. reflexivity. }
    cbn. rewrite <- app_assoc. reflexivity.
Qed.

Lemma nemo_feed_app : forall cfg es1 es2 s bs1 s1 t1,
  nemo_feed lib cfg es1 s = (Returned bs1, s1, t1) ->
  trace_of (nemo_feed lib cfg (es1 ++ es2) s) = t1 ++ trace_of (nemo_feed lib cfg es2 s1)
  /\ state_of (nemo_feed lib cfg (es1 ++ es2) s) = state_of (nemo_feed lib cfg es2 s1)
  /\ exn_of (value_of (nemo_feed lib cfg (es1 ++ es2) s))
     = exn_of (value_of (nemo_feed lib cfg es2 s1)).
Proof.
  intros cfg es1. induction es1 as [|e es1 IH]; intros es2 s bs1 s1 t1 H1.
  - cbn in H1. inversion H1; subst. repeat split; reflexivity.
  - cbn [nemo_feed] in H1. unfold bind in H1.
    destruct (Nemo.handle_event lib cfg e s) as [[[b|x] s0] t0] eqn:He; [|discriminate].
    destruct (nemo_feed lib cfg es1 s0) as [[[bs|x] s3] t3] eqn:Hf; [|discriminate].
    cbn in H1. inversion H1; subst. rewrite app_nil_r.
    destruct (IH es2 s0 bs s1 t3 Hf) as [Ht [Hs Hx]].
    cbn [app nemo_feed]. unfold bind. rewrite He.
    destruct (nemo_feed lib cfg (es1 ++ es2) s0) as [[[bs'|x'] s4] t4];
      cbn [state_of trace_of value_of exn_of fst snd ret] in *;
      rewrite ?app_nil_r, <- ?app_assoc; subst; repeat split; try reflexivity; assumption.
Qed.

(** The older handler under two configurations that differ in the prompt
    only. *)
Lemma nemo_prompt : forall info m p p' path e s,
  let o := Nemo.handle_event lib (Nemo.mkConfig info m p path) e s in
  let o' := Nemo.handle_event lib (Nemo.mkConfig info m p' path) e s in
  value_of o = value_of o'
  /\ state_of o = state_of o'
  /\ recognize_calls (trace_of o) = recognize_calls (trace_of o')
  /\ sent (trace_of o) = sent (trace_of o').
Proof.
  intros info m p p' path e s. destruct e as [c| |l| |t];
    try (repeat split; reflexivity).
  cbv zeta.
  destruct (wav_file s) as [w|] eqn:Hw.
  - rewrite !(nemo_stop_run _ s w Hw).
    destruct (finalize_and_read lib s) as [[[[wf r]|e] s1] tr]; cbn [Nemo.model].
    + destruct (m wf r "en"); repeat split; reflexivity.
    + destruct (fst (writer_close w)); repeat split; reflexivity.
  - rewrite !nemo_stop_without_sink by exact Hw. repeat split; reflexivity.
Qed.

End Older.

(** ** Model failures *)

(** C3, amended: in the registry handler, when the recording was closed and
    read back, every model-facing failure of an [AudioStop] (empty registry,
    no model selectable, [recognize] raising) ends in a normal return: the one
    event written is a [Transcript] whose text starts with ["ERROR:"], and the
    lock is not held afterwards. In the older handler an exception of
    [recognize] is not caught: it leaves [handle_event], with the lock
    released and nothing written. *)
Theorem model_failure_reported : forall lib py_repr cfg ncfg h w,
  wav_file (wav h) = Some w ->
  reads_back lib w = true ->
  (model_failure lib cfg h (sealed w) ->
   exists h' tr text,
     handle_event lib py_repr cfg AudioStop h = (Returned false, h', tr)
     /\ sent tr = [Transcript text]
     /\ error_tagged text = true
     /\ lock_ok false tr = true)
  /\ (forall msg,
        Nemo.model ncfg (waveform_of lib (sealed w)) (framerate w) "en" = Raises msg ->
        exists s' tr,
          Nemo.handle_event lib ncfg AudioStop (wav h) = (Raised (RecognizeError msg), s', tr)
          /\ sent tr = []
          /\ lock_ok false tr = true).
Proof.
  intros lib py_repr cfg ncfg h w Hw Hread.
  pose proof (finalize_reads_back lib h w Hw Hread) as Hfin.
  split.
  - intros Hfail.
    assert (Hcases : selected cfg (py_or (request_language h) "en") = None
                     \/ exists k a msg,
                          selected cfg (py_or (request_language h) "en") = Some (k, a)
                          /\ a (waveform_of lib (sealed w)) (framerate w)
                               (py_or (request_language h) "en") = Raises msg).
    { destruct Hfail as [Hempty | [Hnone | Hraise]].
      - left. apply empty_registry_selects_nothing. exact Hempty.
      - left. exact Hnone.
      - right. exact Hraise. }
    destruct Hcases as [Hnone | [k [a [msg [Hsel Ha]]]]].
    + destruct (stop_no_model lib py_repr cfg h w _ _ _ Hw Hfin Hnone)
        as [logs [msg [Hlogs Hrun]]].
      eexists. eexists. exists ("ERROR: " ++ msg)%string.
      split; [exact Hrun|]. split; [|split].
      * rewrite sent_app, (only_logs_sent _ Hlogs). reflexivity.
      * reflexivity.
      * rewrite lock_ok_logs by exact Hlogs. reflexivity.
    + destruct (stop_raises lib py_repr cfg h w _ _ _ k a msg Hw Hfin Hsel Ha)
        as [logs [m1 [m2 [Hlogs Hrun]]]].
      eexists. eexists.
      exists ("ERROR: " ++ ("Transcription failed: " ++ msg))%string.
      split; [exact Hrun|]. split; [|split].
      * rewrite sent_app, (only_logs_sent _ Hlogs). reflexivity.
      * reflexivity.
      * rewrite lock_ok_logs by exact Hlogs. reflexivity.
  - intros msg Hm.
    rewrite (nemo_stop_run lib ncfg (wav h) w Hw), Hfin, Hm.
    do 2 eexists. split; [reflexivity|]. split; reflexivity.
Qed.

(** A model that raises, in both handlers, after one buffered sample. *)
Lemma model_failure_reported_witness :
  (exists h' tr text,
     handle_event binary32 repr_plain (mkConfig "" [("multi", fails "boom")] None) AudioStop
       (buffering (Some "fr"))
     = (Returned false, h', tr)
     /\ sent tr = [Transcript text]
     /\ error_tagged text = true
     /\ lock_ok false tr = true)
  /\ (exists s' tr,
        Nemo.handle_event binary32 (Nemo.mkConfig "" (fails "boom") None "/tmp/speech.wav")
          AudioStop (wav (buffering (Some "fr")))
        = (Raised (RecognizeError "boom"), s', tr)
        /\ sent tr = []
        /\ lock_ok false tr = true).
Proof.
  destruct (model_failure_reported binary32 repr_plain
              (mkConfig "" [("multi", fails "boom")] None)
              (Nemo.mkConfig "" (fails "boom") None "/tmp/speech.wav")
              (buffering (Some "fr")) (opened 16000 2 1 [x00; x40])
              eq_refl eq_refl) as [Hnew Hold].
  split.
  - apply Hnew. right. right. exists "multi", (fails "boom"), "boom". split; reflexivity.
  - apply (Hold "boom"). reflexivity.
Defined.

(** C3 as stated fails in the older handler: the exception of [recognize]
    crosses [handle_event] and no transcript is written. *)
Lemma older_handler_lets_failure_through :
  let o := Nemo.handle_event binary32 (Nemo.mkConfig "" (fails "boom") None "/tmp/speech.wav")
             AudioStop (wav (buffering None)) in
  value_of o = Raised (RecognizeError "boom")
  /\ sent (trace_of o) = [].
Proof.
  split; vm_compute; reflexivity.
Qed.

(** ** The sink *)




(** ** Requested language *)

Lemma py_or_effective : forall language, py_or language "en" = effective_language language.
Proof.
  intros [[|a r]|]; reflexivity.
Qed.

Lemma nemo_feed_one : forall lib cfg e s,
  trace_of (nemo_feed lib cfg [e] s) = trace_of (Nemo.handle_event lib cfg e s).
Proof.
  intros lib cfg e s. cbn [nemo_feed]. unfold bind.
  destruct (Nemo.handle_event lib cfg e s) as [[[b|x] s1] t1]; cbn;
    rewrite ?app_nil_r; reflexivity.
Qed.

(** C5, amended: in the registry handler a [Transcribe] event stores its
    language (possibly [None]) as the pending requested language, leaves the
    sink alone, calls no model and writes nothing; the [AudioStop] that ends
    the utterance after it selects the model for that language, ["en"] if it
    is unset or empty, and calls [recognize] with it. The older handler
    drops the event: it changes nothing, and the call of the next
    [AudioStop] has language ["en"] whatever was requested. *)
Theorem transcribe_records_language : forall lib py_repr cfg ncfg language h c cs,
  handle_event lib py_repr cfg (Transcribe language) h
  = (Returned true, mkHandler language (wav h), [])
  /\ Nemo.handle_event lib ncfg (Transcribe language) (wav h) = (Returned true, wav h, [])
  /\ (wav_file (wav h) = None ->
      recordable lib c cs = true ->
      let file :=
        container (rate c) (width c) (channels c) (concat (map audio (c :: cs))) in
      let utterance := Transcribe language :: map AudioChunk (c :: cs) ++ [AudioStop] in
      (exists bs h' tr,
         feed lib py_repr cfg utterance h = (Returned bs, h', tr)
         /\ recognize_calls tr
            = match selected cfg (effective_language language) with
              | Some (k, _) =>
                  [(k, waveform_of lib file, rate c, effective_language language)]
              | None => []
              end)
      /\ recognize_calls (trace_of (nemo_feed lib ncfg utterance (wav h)))
         = [("model", waveform_of lib file, rate c, "en")]).
Proof.
  intros lib py_repr cfg ncfg language h c cs.
  split; [reflexivity|]. split; [reflexivity|].
  intros Hw Hrec file utterance.
  pose proof (recordable_accepts lib c cs Hrec) as Hacc.
  pose proof (finalize_recording lib c cs Hrec) as Hfin. cbv zeta in Hfin. fold file in Hfin.
  split.
  - pose (h1 := mkHandler language
                  (mkSink (Some (opened (rate c) (width c) (channels c)
                                   (concat (map audio (c :: cs))))) None)).
    destruct (stop_summary lib py_repr cfg h1 _ _ _ _ eq_refl Hfin)
      as [h' [tr [text [Hrun [_ [Hcalls _]]]]]].
    exists (true :: map (fun _ => true) (c :: cs) ++ [false]), h', ([] ++ [] ++ tr ++ []).
    split.
    + unfold utterance. eapply feed_cons; [apply transcribe_run|].
      eapply feed_app.
      * apply (feed_chunks_closed lib py_repr cfg c cs (mkHandler language (wav h)));
          assumption.
      * eapply feed_cons; [exact Hrun | reflexivity].
    + cbn [app]. rewrite app_nil_r, Hcalls. unfold h1. cbn [request_language].
      rewrite py_or_effective. reflexivity.
  - unfold utterance.
    change (Transcribe language :: map AudioChunk (c :: cs) ++ [AudioStop])
      with ((Transcribe language :: map AudioChunk (c :: cs)) ++ [AudioStop]).
    assert (Hpre : nemo_feed lib ncfg (Transcribe language :: map AudioChunk (c :: cs)) (wav h)
                   = (Returned (true :: map (fun _ => true) (c :: cs)),
                      mkSink (Some (opened (rate c) (width c) (channels c)
                                      (concat (map audio (c :: cs))))) None, [])).
    { eapply eq_trans.
      { eapply nemo_feed_cons; [apply nemo_transcribe_ignored|].
        cbn [map]. eapply nemo_feed_cons.
        - rewrite nemo_chunk_run. destruct (wav h) as [f d]. cbn in Hw. subst f.
          rewrite buffer_chunk_closed. unfold wave_accepts in Hacc.
          destruct (chunk_refusal c); [discriminate | reflexivity].
        - apply nemo_feed_chunks_writing. reflexivity. }
      reflexivity. }
    destruct (nemo_feed_app lib ncfg _ [AudioStop] _ _ _ _ Hpre) as [Ht _].
    rewrite Ht, nemo_feed_one. cbn [app].
    rewrite (nemo_stop_run lib ncfg
               (mkSink (Some (opened (rate c) (width c) (channels c)
                                (concat (map audio (c :: cs))))) None)
               (opened (rate c) (width c) (channels c) (concat (map audio (c :: cs))))
               eq_refl), Hfin.
    destruct (Nemo.model ncfg (waveform_of lib file) (rate c) "en"); reflexivity.
Qed.

(** French is requested; the registry handler calls the multilingual model
    with ["fr"], the older handler calls its model with ["en"]. *)
Lemma transcribe_records_language_witness :
  (exists bs h' tr,
     feed binary32 repr_plain
       (mkConfig "" [("en", says "hello"); ("multi", says "bonjour")] None)
       [Transcribe (Some "fr"); AudioChunk silence; AudioStop] init
     = (Returned bs, h', tr)
     /\ recognize_calls tr
        = [("multi", waveform_of binary32 (container 16000 2 1 (audio silence)), 16000, "fr")])
  /\ recognize_calls
       (trace_of (nemo_feed binary32 (Nemo.mkConfig "" (says "hello") None "/tmp/speech.wav")
                    [Transcribe (Some "fr"); AudioChunk silence; AudioStop]
                    (mkSink None None)))
     = [("model", waveform_of binary32 (container 16000 2 1 (audio silence)), 16000, "en")].
Proof.
  destruct (transcribe_records_language binary32 repr_plain
              (mkConfig "" [("en", says "hello"); ("multi", says "bonjour")] None)
              (Nemo.mkConfig "" (says "hello") None "/tmp/speech.wav")
              (Some "fr") init silence []) as [_ [_ Hutt]].
  destruct (Hutt eq_refl eq_refl) as [Hnew Hold].
  split; [exact Hnew | exact Hold].
Defined.

(** C5 as stated fails in the older handler: the language of a [Transcribe]
    event is not recorded, and the next [AudioStop] calls the model with
    ["en"]. *)
Lemma older_handler_drops_language :
  let cfg := Nemo.mkConfig "" (says "hello") None "/tmp/speech.wav" in
  state_of (Nemo.handle_event binary32 cfg (Transcribe (Some "fr")) (mkSink None None))
  = mkSink None None
  /\ map snd
       (recognize_calls
          (trace_of (nemo_feed binary32 cfg
                       [Transcribe (Some "fr"); AudioChunk silence; AudioStop]
                       (mkSink None None))))
     = ["en"].
Proof.
  split; vm_compute; reflexivity.
Qed.

(** ** Requested language after a stop *)

(** On both failure paths the pending language is left as it was. *)
Lemma failed_stop_keeps_language : forall lib py_repr cfg h w,
  wav_file (wav h) = Some w ->
  reads_back lib w = true ->
  model_failure lib cfg h (sealed w) ->
  request_language (state_of (handle_event lib py_repr cfg AudioStop h))
  = request_language h.
Proof.
  intros lib py_repr cfg h w Hw Hread Hfail.
  pose proof (finalize_reads_back lib h w Hw Hread) as Hfin.
  destruct Hfail as [Hempty | [Hnone | [k [a [msg [Hsel Ha]]]]]].
  - apply (empty_registry_selects_nothing cfg (py_or (request_language h) "en")) in Hempty.
    destruct (stop_no_model lib py_repr cfg h w _ _ _ Hw Hfin Hempty) as [logs [msg [_ Hrun]]].
    rewrite Hrun. reflexivity.
  - destruct (stop_no_model lib py_repr cfg h w _ _ _ Hw Hfin Hnone) as [logs [msg [_ Hrun]]].
    rewrite Hrun. reflexivity.
  - destruct (stop_raises lib py_repr cfg h w _ _ _ k a msg Hw Hfin Hsel Ha)
      as [logs [m1 [m2 [_ Hrun]]]].
    rewrite Hrun. reflexivity.
Qed.

(** After a transcript was produced the pending language is unset. *)
Lemma successful_stop_resets_language : forall lib py_repr cfg h w k a t,
  wav_file (wav h) = Some w ->
  reads_back lib w = true ->
  selected cfg (py_or (request_language h) "en") = Some (k, a) ->
  a (waveform_of lib (sealed w)) (framerate w) (py_or (request_language h) "en") = Text t ->
  request_language (state_of (handle_event lib py_repr cfg AudioStop h)) = None.
Proof.
  intros lib py_repr cfg h w k a t Hw Hread Hsel Ha.
  pose proof (finalize_reads_back lib h w Hw Hread) as Hfin.
  destruct (stop_text lib py_repr cfg h w _ _ _ k a t Hw Hfin Hsel Ha)
    as [logs [m1 [m2 [m3 [_ Hrun]]]]].
  rewrite Hrun. reflexivity.
Qed.

(** C2, at its failing inputs: after [Transcribe(language="fr")], one chunk and
    an [AudioStop] that ends in an error transcript (empty registry, or the
    model raising), the pending language is still ["fr"]; a second utterance
    with no [Transcribe] event is then recognized with ["fr"], not ["en"]. *)
Theorem failed_stop_leaves_language_pending :
  request_language
    (state_of (feed binary32 repr_plain (mkConfig "" [] None)
                 [Transcribe (Some "fr"); AudioChunk silence; AudioStop] init))
  = Some "fr"
  /\ request_language
       (state_of (feed binary32 repr_plain (mkConfig "" [("multi", fails "boom")] None)
                    [Transcribe (Some "fr"); AudioChunk silence; AudioStop] init))
     = Some "fr"
  /\ map snd
       (recognize_calls
          (trace_of (feed binary32 repr_plain (mkConfig "" [("multi", fails "boom")] None)
                       [Transcribe (Some "fr"); AudioChunk silence; AudioStop;
                        AudioChunk silence; AudioStop] init)))
     = ["fr"; "fr"].
Proof.
  repeat split; vm_compute; reflexivity.
Qed.

(** ** Stop without a sink, and return values *)

(** C4, amended: with no open sink, [AudioStop] fails the assertion:
    [AssertionError] leaves [handle_event] after the debug record, the
    handler is unchanged, no model is called and nothing is written. *)
Theorem stop_without_sink_raises : forall lib py_repr cfg h,
  wav_file (wav h) = None ->
  exists tr,
    handle_event lib py_repr cfg AudioStop h = (Raised AssertionError, h, tr)
    /\ only_logs tr = true
    /\ sent tr = []
    /\ recognize_calls tr = [].
Proof.
  intros lib py_repr cfg h Hw. eexists. split; [apply stop_assert; exact Hw|].
  repeat split; reflexivity.
Qed.

Lemma stop_without_sink_raises_witness :
  exists tr,
    handle_event binary32 repr_plain (mkConfig "" [("en", says "hi")] None) AudioStop init
    = (Raised AssertionError, init, tr)
    /\ only_logs tr = true
    /\ sent tr = []
    /\ recognize_calls tr = [].
Proof.
  apply (stop_without_sink_raises binary32 repr_plain
           (mkConfig "" [("en", says "hi")] None) init).
  reflexivity.
Defined.

(** C4 as stated fails on a fresh handler: the first [AudioStop] ends in the
    failed assertion, not in a value returned to the caller. *)
Lemma stop_on_fresh_handler_is_fatal :
  wav_file (wav init) = None
  /\ fatal_assertion
       (value_of (handle_event binary32 repr_plain (mkConfig "" [("en", says "hi")] None)
                    AudioStop init))
     = true.
Proof.
  split; reflexivity.
Qed.




(** ** The initial prompt *)

Section Prompt.

Variable lib : Libraries.
Variable py_repr : list string -> string.

Lemma selected_prompt : forall info ms p p' lang,
  selected (mkConfig info ms p) lang = selected (mkConfig info ms p') lang.
Proof. reflexivity. Qed.

(** One event under two configurations that differ in the prompt only. *)
Lemma step_prompt : forall info ms p p' e h,
  exists r h' tr tr',
    handle_event lib py_repr (mkConfig info ms p) e h = (r, h', tr)
    /\ handle_event lib py_repr (mkConfig info ms p') e h = (r, h', tr')
    /\ recognize_calls tr = recognize_calls tr'
    /\ sent tr = sent tr'.
Proof.
  intros info ms p p' e h. destruct e as [c| |l| |t];
    try (do 4 eexists; repeat split; reflexivity);
    try (do 4 eexists; split; [apply chunk_run|]; split; [apply chunk_run|];
         split; reflexivity).
  destruct (wav_file (wav h)) as [w|] eqn:Hw.
  - destruct (finalize_cases lib (wav h))
      as [[e [s1 Hfin]] | [wf [r [s1 [file [Hfin _]]]]]].
    { do 4 eexists. split; [eapply stop_read_raises; eassumption|].
      split; [eapply stop_read_raises; eassumption|]. split; reflexivity. }
    destruct (selected (mkConfig info ms p) (py_or (request_language h) "en"))
      as [[k a]|] eqn:Hsel.
    + destruct (a wf r (py_or (request_language h) "en")) as [t|msg] eqn:Ha.
      * destruct (stop_text lib py_repr _ h w wf r s1 k a t Hw Hfin Hsel Ha)
          as [logs [m1 [m2 [m3 [Hlogs Hrun]]]]].
        rewrite (selected_prompt info ms p p') in Hsel.
        destruct (stop_text lib py_repr _ h w wf r s1 k a t Hw Hfin Hsel Ha)
          as [logs' [m1' [m2' [m3' [Hlogs' Hrun']]]]].
        do 4 eexists. split; [exact Hrun|]. split; [exact Hrun'|].
        rewrite !recognize_calls_app, !sent_app,
          (only_logs_calls _ Hlogs), (only_logs_calls _ Hlogs'),
          (only_logs_sent _ Hlogs), (only_logs_sent _ Hlogs').
        split; reflexivity.
      * destruct (stop_raises lib py_repr _ h w wf r s1 k a msg Hw Hfin Hsel Ha)
          as [logs [m1 [m2 [Hlogs Hrun]]]].
        rewrite (selected_prompt info ms p p') in Hsel.
        destruct (stop_raises lib py_repr _ h w wf r s1 k a msg Hw Hfin Hsel Ha)
          as [logs' [m1' [m2' [Hlogs' Hrun']]]].
        do 4 eexists. split; [exact Hrun|]. split; [exact Hrun'|].
        rewrite !recognize_calls_app, !sent_app,
          (only_logs_calls _ Hlogs), (only_logs_calls _ Hlogs'),
          (only_logs_sent _ Hlogs), (only_logs_sent _ Hlogs').
        split; reflexivity.
    + destruct (stop_open lib py_repr (mkConfig info ms p) h w wf r s1 Hw Hfin)
        as [logs [Hlogs Hrun]].
      destruct (stop_open lib py_repr (mkConfig info ms p') h w wf r s1 Hw Hfin)
        as [logs' [Hlogs' Hrun']].
      destruct (report_no_model_run py_repr (mkConfig info ms p)
                  (mkHandler (request_language h) s1))
        as [l1 [msg [Hrep Hl1]]].
      do 4 eexists. split; [|split].
      * apply Hrun. rewrite Hsel. exact Hrep.
      * apply Hrun'. rewrite <- (selected_prompt info ms p p'), Hsel. exact Hrep.
      * rewrite !recognize_calls_app, !sent_app,
          (only_logs_calls _ Hlogs), (only_logs_calls _ Hlogs'),
          (only_logs_sent _ Hlogs), (only_logs_sent _ Hlogs').
        split; reflexivity.
  - do 4 eexists. split; [apply stop_assert; exact Hw|].
    split; [apply stop_assert; exact Hw|]. split; reflexivity.
Qed.

Lemma feed_prompt : forall info ms p p' evs h,
  exists r h' tr tr',
    feed lib py_repr (mkConfig info ms p) evs h = (r, h', tr)
    /\ feed lib py_repr (mkConfig info ms p') evs h = (r, h', tr')
    /\ recognize_calls tr = recognize_calls tr'
    /\ sent tr = sent tr'.
Proof.
  intros info ms p p' evs. induction evs as [|e evs IH]; intros h.
  - do 4 eexists. repeat split; reflexivity.
  - destruct (step_prompt info ms p p' e h)
      as [r [h1 [t1 [t1' [H1 [H1' [Hc1 Hs1]]]]]]].
    destruct r as [b|x].
    + destruct (IH h1) as [r2 [h2 [t2 [t2' [H2 [H2' [Hc2 Hs2]]]]]]].
      cbn [feed]. unfold bind. rewrite H1, H1', H2, H2'.
      destruct r2 as [bs|x]; do 4 eexists; (split; [reflexivity|]);
        (split; [reflexivity|]);
        rewrite ?app_nil_r, !recognize_calls_app, !sent_app, Hc1, Hc2, Hs1, Hs2;
        split; reflexivity.
    + cbn [feed]. unfold bind. rewrite H1, H1'.
      do 4 eexists. repeat split; assumption.
Qed.

End Prompt.

(** C8: two handlers that differ only in [initial_prompt], fed the same
    events from the same state, return the same values, end in the same
    state, make the same [recognize] calls with the same arguments and write
    the same events. *)
Theorem initial_prompt_noninterference : forall lib py_repr cfg p1 p2 evs h,
  let o1 := feed lib py_repr (with_prompt p1 cfg) evs h in
  let o2 := feed lib py_repr (with_prompt p2 cfg) evs h in
  value_of o1 = value_of o2
  /\ state_of o1 = state_of o2
  /\ recognize_calls (trace_of o1) = recognize_calls (trace_of o2)
  /\ sent (trace_of o1) = sent (trace_of o2).
Proof.
  intros lib py_repr cfg p1 p2 evs h o1 o2. unfold o1, o2, with_prompt.
  destruct (feed_prompt lib py_repr (wyoming_info_event cfg) (models cfg) p1 p2 evs h)
    as [r [h' [tr [tr' [H1 [H2 [Hc Hs]]]]]]].
  rewrite H1, H2. repeat split; assumption.
Qed.

(** The prompt does reach the log: the debug record of [AudioStop] shows it. *)
Lemma initial_prompt_is_logged :
  logged (trace_of (handle_event binary32 repr_plain (mkConfig "" [] (Some "hint"))
                      AudioStop init))
  = [(lvl_debug, "Audio stopped. Transcribing with initial prompt=hint")]
  /\ logged (trace_of (handle_event binary32 repr_plain (mkConfig "" [] None) AudioStop init))
     = [(lvl_debug, "Audio stopped. Transcribing with initial prompt=None")].
Proof.
  split; reflexivity.
Qed.

(** ** The lock *)

Section Lock.

Variable lib : Libraries.
Variable py_repr : list string -> string.

(** Every call of [handle_event] keeps the lock discipline. *)
Lemma handle_event_lock_ok : forall cfg e h,
  lock_ok false (trace_of (handle_event lib py_repr cfg e h)) = true.
Proof.
  intros cfg e h. destruct e as [c| |l| |t]; try reflexivity.
  - rewrite chunk_run. reflexivity.
  - destruct (wav_file (wav h)) as [w|] eqn:Hw.
    + destruct (stop_cases lib py_repr cfg h w Hw)
        as [[e [s1 [_ Hrun]]]
           | [wf [r [s1 [file [h' [tr [text [_ [_ [_ [Hrun [_ [_ [_ Hok]]]]]]]]]]]]]]].
      * rewrite Hrun. reflexivity.
      * rewrite Hrun. exact Hok.
    + rewrite (stop_assert lib py_repr cfg h Hw). reflexivity.
Qed.

Lemma feed_lock_ok : forall cfg evs h,
  lock_ok false (trace_of (feed lib py_repr cfg evs h)) = true.
Proof.
  intros cfg evs. induction evs as [|e evs IH]; intros h; [reflexivity|].
  pose proof (handle_event_lock_ok cfg e h) as He.
  cbn [feed]. unfold bind.
  destruct (handle_event lib py_repr cfg e h) as [[[b|x] h1] t1]; [|exact He].
  pose proof (IH h1) as Hrest.
  destruct (feed lib py_repr cfg evs h1) as [[[bs|x] h2] t2];
    cbn [trace_of snd ret] in *; rewrite ?app_nil_r; apply lock_ok_app; assumption.
Qed.

End Lock.
Lemma owned_by_other : forall i j o,
  j <> i -> owned_by i o = true -> owned_by j o = false.
Proof.
  intros i j [k|] Hne Hi; [|reflexivity]. cbn in *.
  apply Nat.eqb_eq in Hi. subst k. apply Nat.eqb_neq. exact Hne.
Qed.

Lemma owned_by_true : forall i o, owned_by i o = true -> o = Some i.
Proof.
  intros i [k|] H; [|discriminate]. cbn in H. apply Nat.eqb_eq in H. congruence.
Qed.

(** One step keeps the link between lock and sessions, and is a serialized
    move. *)
Lemma step_consistent : forall o s i e s',
  consistent o s ->
  step s (i, e) s' ->
  exists o',
    consistent o' s'
    /\ forall g, serialized o' g = true -> serialized o ((i, e) :: g) = true.
Proof.
  intros o s i e s' [Hlock Hall] Hstep.
  inversion Hstep as [p i0 rest Hp | l p i0 rest Hp | l p i0 e0 rest Hp Hna Hnr]; subst.
  - (* the lock is free and session i takes it *)
    cbn in Hlock. destruct o as [k|]; [discriminate|].
    pose proof (Hall i) as Hi. cbn in Hi. rewrite Hp in Hi. cbn in Hi.
    exists (Some i). split; [split; [reflexivity|]|].
    + intros j. cbn [pending]. unfold advance.
      destruct (Nat.eqb j i) eqn:E.
      * apply Nat.eqb_eq in E. subst j. cbn. rewrite Nat.eqb_refl. exact Hi.
      * cbn. rewrite E. exact (Hall j).
    + intros g Hg. exact Hg.
  - (* session i releases: it was the owner *)
    pose proof (Hall i) as Hi. cbn in Hi. rewrite Hp in Hi. cbn in Hi.
    apply andb_true_iff in Hi. destruct Hi as [Hown Hrest].
    exists None. split; [split; [reflexivity|]|].
    + intros j. cbn [pending]. unfold advance.
      destruct (Nat.eqb j i) eqn:E.
      * exact Hrest.
      * apply Nat.eqb_neq in E. change (owned_by j None) with false.
        rewrite <- (owned_by_other i j o E Hown). exact (Hall j).
    + intros g Hg. cbn. rewrite Hown, Hg. reflexivity.
  - (* any other action: a recognize call needs the lock *)
    pose proof (Hall i) as Hi. cbn in Hi. rewrite Hp in Hi.
    exists o. split; [split; [exact Hlock|]|].
    + intros j. cbn [pending]. unfold advance.
      destruct (Nat.eqb j i) eqn:E.
      * apply Nat.eqb_eq in E. subst j.
        destruct e; cbn in Hi; try exact Hi; try congruence.
        apply andb_true_iff in Hi. destruct Hi as [Hown Hrest].
        rewrite Hown in *. exact Hrest.
      * exact (Hall j).
    + intros g Hg. destruct e; cbn; try exact Hg; try congruence.
      cbn in Hi. apply andb_true_iff in Hi. destruct Hi as [Hown _].
      rewrite Hown, Hg. reflexivity.
Qed.

Lemma exec_serialized : forall s g s',
  exec s g s' -> forall o, consistent o s -> serialized o g = true.
Proof.
  intros s g s' Hexec. induction Hexec as [s | s1 [i e] s2 g s3 Hstep Hexec IH];
    intros o Hcons; [reflexivity|].
  destruct (step_consistent o s1 i e s2 Hcons Hstep) as [o' [Hcons' Hser]].
  apply Hser, IH. exact Hcons'.
Qed.

Lemma start_consistent : forall traces,
  Forall (fun tr => lock_ok false tr = true) traces ->
  consistent None (start traces).
Proof.
  intros traces Hall. split; [reflexivity|].
  intros j. cbn. revert j. induction Hall as [|tr traces Htr Hall IH]; intros j.
  - destruct j; reflexivity.
  - destruct j; [exact Htr | apply IH].
Qed.

Lemma next_action_step : forall s i e s',
  next_action s i = Some (e, s') -> step s (i, e) s'.
Proof.
  intros [l p] i e s' H. unfold next_action in H. cbn [pending locked] in H.
  destruct (p i) as [|e0 rest] eqn:Hp; [discriminate|].
  destruct e0;
    try (inversion H; subst; eapply step_action; [exact Hp | discriminate | discriminate]).
  - destruct l; [discriminate|]. inversion H; subst. apply step_acquire. exact Hp.
  - inversion H; subst. apply step_release. exact Hp.
Qed.

Lemma schedule_exec : forall order s g s',
  schedule s order = Some (g, s') -> exec s g s'.
Proof.
  induction order as [|i order IH]; intros s g s' H.
  - cbn in H. inversion H; subst. constructor.
  - cbn [schedule] in H.
    destruct (next_action s i) as [[e s1]|] eqn:Hn; [|discriminate].
    destruct (schedule s1 order) as [[g1 s2]|] eqn:Hs; [|discriminate].
    inversion H; subst.
    econstructor; [apply next_action_step; exact Hn | apply IH; exact Hs].
Qed.

(** C9: sessions run their handlers on their own events and share the lock;
    whatever the interleaving of their actions, the lock is taken only while
    free, and every [recognize] call is made by the session that holds the
    lock, between its acquisition and its release: calls never overlap. *)
Theorem recognize_calls_never_overlap : forall lib py_repr sessions g s',
  exec (start (map (session_trace lib py_repr) sessions)) g s' ->
  serialized None g = true.
Proof.
  intros lib py_repr sessions g s' Hexec.
  apply (exec_serialized _ _ _ Hexec).
  apply start_consistent. apply Forall_forall. intros tr Hin.
  apply in_map_iff in Hin. destruct Hin as [[[cfg h] evs] [Htr _]]. subst tr.
  apply feed_lock_ok.
Qed.

(** Two sessions whose stops overlap: all 24 actions get scheduled, and the
    schedule is serialized. *)
Lemma recognize_calls_never_overlap_witness :
  exists g s',
    schedule (start (map (session_trace binary32 repr_plain) two_sessions)) interleaving
    = Some (g, s')
    /\ length g = 24%nat
    /\ map fst (filter (fun a => match snd a with Recognize _ _ _ _ => true | _ => false end) g)
       = [0; 1]%nat
    /\ serialized None g = true.
Proof.
  do 2 eexists. split; [vm_compute; reflexivity|].
  split; [reflexivity|]. split; [reflexivity|].
  eapply (recognize_calls_never_overlap binary32 repr_plain two_sessions).
  apply (schedule_exec interleaving). vm_compute. reflexivity.
Defined.

(** While session 0 holds the lock, session 1 cannot take it. *)
Lemma second_session_waits :
  schedule (start (map (session_trace binary32 repr_plain) two_sessions))
    [0; 0; 0; 0; 0; 1; 1; 1; 1; 1]%nat
  = None.
Proof. vm_compute. reflexivity. Qed.
(** * Further properties of the handlers *)

(** ** Reading traces *)

Lemma transcripts_app : forall t1 t2,
  transcripts (t1 ++ t2) = transcripts t1 ++ transcripts t2.
Proof.
  intros t1 t2. unfold transcripts. rewrite sent_app. apply flat_map_app.
Qed.

Lemma only_logs_transcripts : forall tr, only_logs tr = true -> transcripts tr = [].
Proof.
  intros tr H. unfold transcripts. rewrite (only_logs_sent _ H). reflexivity.
Qed.

Lemma only_logs_lock_free : forall tr, only_logs tr = true -> lock_free tr = true.
Proof.
  induction tr as [|e tr IH]; [reflexivity|].
  destruct e; cbn; intros H; try discriminate; auto.
Qed.

Lemma only_logs_critical : forall tr, only_logs tr = true -> critical tr = [].
Proof.
  induction tr as [|e tr IH]; [reflexivity|].
  destruct e; cbn; intros H; try discriminate; auto.
Qed.

Lemma critical_app : forall t1 t2, critical (t1 ++ t2) = critical t1 ++ critical t2.
Proof.
  intros t1 t2. unfold critical. apply filter_app.
Qed.

Lemma lock_free_app : forall t1 t2,
  lock_free (t1 ++ t2) = lock_free t1 && lock_free t2.
Proof.
  intros t1 t2. unfold lock_free. apply forallb_app.
Qed.

(** ** Which models can be selected *)

Lemma lookup_contains : forall k ms a, lookup k ms = Some a -> contains k ms = true.
Proof.
  intros k ms a. unfold contains, keys.
  induction ms as [|[k' a'] ms IH]; cbn; [discriminate|].
  destruct (String.eqb k k'); cbn; auto.
Qed.

Lemma selected_cases : forall cfg lang,
  match selected cfg lang with
  | Some (k, a) => (k = "en" \/ k = "multi") /\ lookup k (models cfg) = Some a
  | None => contains "en" (models cfg) = false /\ contains "multi" (models cfg) = false
  end.
Proof.
  intros cfg lang. unfold selected, select_model, getitem.
  destruct (String.eqb lang "en" && contains "en" (models cfg)) eqn:E1.
  - apply andb_true_iff in E1. destruct E1 as [_ E1].
    destruct (contains_lookup _ _ E1) as [a Ha]. rewrite Ha. cbn. auto.
  - destruct (contains "multi" (models cfg)) eqn:E2.
    + destruct (contains_lookup _ _ E2) as [a Ha]. rewrite Ha. cbn. auto.
    + destruct (contains "en" (models cfg)) eqn:E3.
      * destruct (contains_lookup _ _ E3) as [a Ha]. rewrite Ha. cbn. auto.
      * cbn. auto.
Qed.

(** X1: whatever the language, the selected entry is the registry's entry
    under ["en"] or under ["multi"]; nothing is selected exactly when the
    registry has neither key. *)
Theorem selection_only_en_or_multi : forall cfg lang,
  match selected cfg lang with
  | Some (k, a) => (k = "en" \/ k = "multi") /\ lookup k (models cfg) = Some a
  | None => contains "en" (models cfg) = false /\ contains "multi" (models cfg) = false
  end.
Proof.
  exact selected_cases.
Qed.

(** Whether a model is selected does not depend on the language. *)
Lemma selected_some_any : forall cfg l l' x,
  selected cfg l = Some x -> exists y, selected cfg l' = Some y.
Proof.
  intros cfg l l' [k a] Hsel.
  pose proof (selected_cases cfg l) as H. rewrite Hsel in H.
  destruct H as [Hk Hl]. apply lookup_contains in Hl.
  pose proof (selected_cases cfg l') as H'.
  destruct (selected cfg l') as [y|]; [eexists; reflexivity|].
  destruct H' as [Hen Hmulti]. destruct Hk; subst k; congruence.
Qed.

Section NoModel.

Variable py_repr : list string -> string.

Lemma report_no_model_text : forall cfg h,
  exists logs,
    only_logs logs = true
    /\ report_no_model py_repr cfg h
       = (Returned false, h,
          logs ++ [Sent (Transcript
                           (if truthy (request_language h)
                            then ("ERROR: " ++ ("Language '" ++ py_str (request_language h)
                                  ++ "' is not supported. Available models: "
                                  ++ py_repr (keys (models cfg))))%string
                            else "ERROR: No ASR model is available for transcription"))]).
Proof.
  intros cfg h. unfold report_no_model.
  destruct (truthy (request_language h)) eqn:E.
  - exists [Log lvl_error ("Language '" ++ py_str (request_language h)
                           ++ "' requested but no suitable model is available")%string;
            Log lvl_error ("Available models: " ++ py_repr (keys (models cfg)))%string].
    split; [reflexivity|].
    unfold bind, gets, log, emit, ret, write_event. rewrite E. reflexivity.
  - exists [Log lvl_error "No ASR model loaded - server misconfiguration"].
    split; [reflexivity|].
    unfold bind, gets, log, emit, ret, write_event. rewrite E. reflexivity.
Qed.

End NoModel.

(** X2: a registry without ["en"] and ["multi"] serves no language, not even
    one that is a key of it: an [AudioStop] whose recording reads back
    neither takes the lock nor calls a model, closes the sink, keeps the
    pending language, and writes one transcript, "Language '...' is not
    supported. Available models: ..." if a non-empty language was requested
    and "No ASR model is available for transcription" otherwise. *)
Theorem unlisted_language_not_served : forall lib py_repr cfg h w,
  wav_file (wav h) = Some w ->
  reads_back lib w = true ->
  contains "en" (models cfg) = false ->
  contains "multi" (models cfg) = false ->
  exists tr,
    handle_event lib py_repr cfg AudioStop h = (Returned false, after_close h w, tr)
    /\ lock_free tr = true
    /\ sent tr
       = [Transcript
            (if truthy (request_language h)
             then ("ERROR: " ++ ("Language '" ++ py_str (request_language h)
                   ++ "' is not supported. Available models: "
                   ++ py_repr (keys (models cfg))))%string
             else "ERROR: No ASR model is available for transcription")].
Proof.
  intros lib py_repr cfg h w Hw Hread Hen Hmulti.
  pose proof (finalize_reads_back lib h w Hw Hread) as Hfin.
  assert (Hsel : selected cfg (py_or (request_language h) "en") = None).
  { pose proof (selected_cases cfg (py_or (request_language h) "en")) as H.
    destruct (selected cfg (py_or (request_language h) "en")) as [[k a]|]; [|reflexivity].
    destruct H as [[Hk | Hk] Hl]; subst k; apply lookup_contains in Hl; congruence. }
  destruct (stop_open lib py_repr cfg h w _ _ _ Hw Hfin) as [logs [Hlogs Hrun]].
  destruct (report_no_model_text py_repr cfg (after_close h w)) as [logs' [Hlogs' Hrep]].
  eexists. split; [|split].
  - apply Hrun. rewrite Hsel. exact Hrep.
  - rewrite !lock_free_app, (only_logs_lock_free _ Hlogs), (only_logs_lock_free _ Hlogs').
    reflexivity.
  - rewrite !sent_app, (only_logs_sent _ Hlogs), (only_logs_sent _ Hlogs'). reflexivity.
Qed.

(** German is requested and a German model is loaded, under ["de"]. *)
Lemma unlisted_language_not_served_witness :
  exists tr,
    handle_event binary32 repr_plain (mkConfig "" [("de", says "hallo")] None) AudioStop
      (buffering (Some "de"))
    = (Returned false,
       mkHandler (Some "de") (mkSink None (Some (container 16000 2 1 [x00; x40]))), tr)
    /\ lock_free tr = true
    /\ sent tr
       = [Transcript "ERROR: Language 'de' is not supported. Available models: ['de']"].
Proof.
  apply (unlisted_language_not_served binary32 repr_plain
           (mkConfig "" [("de", says "hallo")] None)
           (buffering (Some "de")) (opened 16000 2 1 [x00; x40])); reflexivity.
Defined.

(** X3: with a model selected, an [AudioStop] whose recording reads back
    takes the lock once, calls that model once with the waveform made mono,
    the container's rate and the language, and releases the lock; it writes
    the returned text unchanged and unsets the pending language, or, if the
    call raised [e], writes "ERROR: Transcription failed: " followed by
    [str(e)] and keeps the pending language. *)
Theorem stop_with_selected_model : forall lib py_repr cfg h w k a,
  wav_file (wav h) = Some w ->
  reads_back lib w = true ->
  selected cfg (py_or (request_language h) "en") = Some (k, a) ->
  let lang := py_or (request_language h) "en" in
  let waveform := make_mono lib (fst (sf_read lib (sealed w))) in
  let answer := a waveform (framerate w) lang in
  exists tr,
    handle_event lib py_repr cfg AudioStop h
    = (Returned false,
       mkHandler (match answer with
                  | Text _ => None
                  | Raises _ => request_language h
                  end) (mkSink None (Some (sealed w))),
       tr)
    /\ critical tr = [Acquire; Recognize k waveform (framerate w) lang; Release]
    /\ sent tr
       = [Transcript (match answer with
                      | Text t => t
                      | Raises msg => ("ERROR: " ++ ("Transcription failed: " ++ msg))%string
                      end)].
Proof.
  intros lib py_repr cfg h w k a Hw Hread Hsel lang waveform answer.
  pose proof (finalize_reads_back lib h w Hw Hread) as Hfin.
  unfold answer, waveform, lang.
  change (make_mono lib (fst (sf_read lib (sealed w)))) with (waveform_of lib (sealed w)).
  destruct (a (waveform_of lib (sealed w)) (framerate w) (py_or (request_language h) "en"))
    as [t|msg] eqn:Ha.
  - destruct (stop_text lib py_repr cfg h w _ _ _ k a t Hw Hfin Hsel Ha)
      as [logs [m1 [m2 [m3 [Hlogs Hrun]]]]].
    eexists. split; [exact Hrun|]. split.
    + rewrite critical_app, (only_logs_critical _ Hlogs). reflexivity.
    + rewrite sent_app, (only_logs_sent _ Hlogs). reflexivity.
  - destruct (stop_raises lib py_repr cfg h w _ _ _ k a msg Hw Hfin Hsel Ha)
      as [logs [m1 [m2 [Hlogs Hrun]]]].
    eexists. split; [exact Hrun|]. split.
    + rewrite critical_app, (only_logs_critical _ Hlogs). reflexivity.
    + rewrite sent_app, (only_logs_sent _ Hlogs). reflexivity.
Qed.

(** A French request served by the multilingual model. *)
Lemma stop_with_selected_model_witness :
  exists tr,
    handle_event binary32 repr_plain
      (mkConfig "" [("en", says "hello"); ("multi", says "bonjour")] None)
      AudioStop (buffering (Some "fr"))
    = (Returned false, mkHandler None (mkSink None (Some (container 16000 2 1 [x00; x40]))), tr)
    /\ critical tr = [Acquire; Recognize "multi" (Array1 [(1 # 2)%Q]) 16000 "fr"; Release]
    /\ sent tr = [Transcript "bonjour"].
Proof.
  apply (stop_with_selected_model binary32 repr_plain
           (mkConfig "" [("en", says "hello"); ("multi", says "bonjour")] None)
           (buffering (Some "fr")) (opened 16000 2 1 [x00; x40]) "multi" (says "bonjour"));
    reflexivity.
Defined.

(** ** Utterances one after another *)

Lemma sent_transcripts : forall tr t, sent tr = [Transcript t] -> transcripts tr = [t].
Proof.
  intros tr t H. unfold transcripts. rewrite H. reflexivity.
Qed.

Lemma waveform_of_empty : forall lib r n c,
  waveform_of lib (container r n c []) = Array1 [].
Proof.
  intros lib r n c. unfold waveform_of, sf_read. cbn.
  destruct (c =? 1); reflexivity.
Qed.

Section Utterances.

Variable lib : Libraries.
Variable py_repr : list string -> string.

(** An [AudioStop] that returns has closed the sink and left a container on
    disk; it returns [False] and has written one transcript. *)
Lemma stop_returned : forall cfg h b h1 t1,
  handle_event lib py_repr cfg AudioStop h = (Returned b, h1, t1) ->
  b = false
  /\ (exists file, wav h1 = mkSink None (Some file))
  /\ (exists text, sent t1 = [Transcript text]).
Proof.
  intros cfg h b h1 t1 Hrun.
  destruct (wav_file (wav h)) as [w|] eqn:Hw.
  - destruct (stop_cases lib py_repr cfg h w Hw)
      as [[e [s1 [_ Hrun']]]
         | [wf [r [s1 [file [h' [tr [text [_ [_ [Hs1 [Hrun' [Hwav [_ [Hsent _]]]]]]]]]]]]]]].
    + rewrite Hrun' in Hrun. discriminate.
    + rewrite Hrun' in Hrun. inversion Hrun; subst.
      split; [reflexivity|]. split; [exists file; exact Hwav | exists text; exact Hsent].
  - rewrite (stop_assert lib py_repr cfg h Hw) in Hrun. discriminate.
Qed.

(** The utterance that chunks make at a handler with no open sink. *)
Lemma utterance_run : forall cfg h c cs,
  wav_file (wav h) = None ->
  recordable lib c cs = true ->
  let file := container (rate c) (width c) (channels c) (concat (map audio (c :: cs))) in
  exists h' tr text,
    feed lib py_repr cfg (map AudioChunk (c :: cs) ++ [AudioStop]) h
    = (Returned (map (fun _ => true) (c :: cs) ++ [false]), h', tr)
    /\ wav h' = mkSink None (Some file)
    /\ recognize_calls tr
       = match selected cfg (py_or (request_language h) "en") with
         | Some (k, _) =>
             [(k, waveform_of lib file, rate c, py_or (request_language h) "en")]
         | None => []
         end
    /\ sent tr = [Transcript text].
Proof.
  intros cfg h c cs Hw Hrec file.
  pose proof (recordable_accepts lib c cs Hrec) as Hacc.
  pose proof (finalize_recording lib c cs Hrec) as Hfin. cbv zeta in Hfin. fold file in Hfin.
  pose (h1 := mkHandler (request_language h)
                (mkSink (Some (opened (rate c) (width c) (channels c)
                                 (concat (map audio (c :: cs))))) None)).
  destruct (stop_summary lib py_repr cfg h1 _ _ _ _ eq_refl Hfin)
    as [h' [tr [text [Hrun [Hwav [Hcalls [Hsent _]]]]]]].
  exists h', ([] ++ tr ++ []), text.
  split; [|split; [|split]].
  - eapply feed_app.
    + apply feed_chunks_closed; assumption.
    + eapply feed_cons; [exact Hrun | reflexivity].
  - exact Hwav.
  - cbn [app]. rewrite app_nil_r. exact Hcalls.
  - cbn [app]. rewrite app_nil_r. exact Hsent.
Qed.

End Utterances.

(** X4: a stop that returns has closed the sink, so a second [AudioStop]
    right after it fails the assertion; by then one transcript has been
    written and the recording of the first stop is still on disk. *)
Theorem stop_after_stop_raises : forall lib py_repr cfg h b h1 t1,
  handle_event lib py_repr cfg AudioStop h = (Returned b, h1, t1) ->
  exists tr file,
    feed lib py_repr cfg [AudioStop; AudioStop] h = (Raised AssertionError, h1, tr)
    /\ wav h1 = mkSink None (Some file)
    /\ length (transcripts tr) = 1%nat.
Proof.
  intros lib py_repr cfg h b h1 t1 Hrun.
  destruct (stop_returned lib py_repr cfg h b h1 t1 Hrun) as [_ [[file Hwav] [text Hsent]]].
  assert (Hclosed : wav_file (wav h1) = None) by (rewrite Hwav; reflexivity).
  eexists. exists file. split; [|split].
  - cbn [feed]. unfold bind. rewrite Hrun, (stop_assert lib py_repr cfg h1 Hclosed).
    reflexivity.
  - exact Hwav.
  - rewrite transcripts_app, (sent_transcripts _ _ Hsent). reflexivity.
Qed.

Lemma stop_after_stop_raises_witness :
  exists tr file,
    feed binary32 repr_plain (mkConfig "" [("en", says "hello")] None) [AudioStop; AudioStop]
      (buffering None)
    = (Raised AssertionError, mkHandler None (mkSink None (Some (container 16000 2 1 [x00; x40]))),
       tr)
    /\ wav (mkHandler None (mkSink None (Some (container 16000 2 1 [x00; x40]))))
       = mkSink None (Some file)
    /\ length (transcripts tr) = 1%nat.
Proof.
  eapply (stop_after_stop_raises binary32 repr_plain (mkConfig "" [("en", says "hello")] None)
            (buffering None) false).
  vm_compute. reflexivity.
Defined.

(** X5: the chunks after a stop start a new recording: when they make one,
    the second stop leaves on disk only their bytes, in the format of the
    first of them, and nothing of the recording before; each stop writes one
    transcript. *)
Theorem next_utterance_starts_fresh : forall lib py_repr cfg h b h1 t1 c cs,
  handle_event lib py_repr cfg AudioStop h = (Returned b, h1, t1) ->
  recordable lib c cs = true ->
  exists bs h' tr,
    feed lib py_repr cfg (AudioStop :: map AudioChunk (c :: cs) ++ [AudioStop]) h
    = (Returned bs, h', tr)
    /\ wav h'
       = mkSink None
           (Some (container (rate c) (width c) (channels c) (concat (map audio (c :: cs)))))
    /\ length (transcripts tr) = 2%nat.
Proof.
  intros lib py_repr cfg h b h1 t1 c cs Hrun Hrec.
  destruct (stop_returned lib py_repr cfg h b h1 t1 Hrun) as [_ [[file Hwav] [text Hsent]]].
  assert (Hclosed : wav_file (wav h1) = None) by (rewrite Hwav; reflexivity).
  destruct (utterance_run lib py_repr cfg h1 c cs Hclosed Hrec)
    as [h' [tr [text' [Hrun' [Hwav' [_ Hsent']]]]]].
  do 3 eexists. split; [|split].
  - eapply feed_cons; [exact Hrun | exact Hrun'].
  - exact Hwav'.
  - rewrite !transcripts_app, (sent_transcripts _ _ Hsent), (sent_transcripts _ _ Hsent').
    reflexivity.
Qed.

Lemma next_utterance_starts_fresh_witness :
  exists bs h' tr,
    feed binary32 repr_plain (mkConfig "" [("en", says "hello")] None)
      (AudioStop :: map AudioChunk [stereo; silence] ++ [AudioStop])
      (mkHandler None (mkSink (Some (opened 8000 1 1 [x80; x81])) None))
    = (Returned bs, h', tr)
    /\ wav h' = mkSink None (Some (container 16000 2 2 (audio stereo ++ audio silence)))
    /\ length (transcripts tr) = 2%nat.
Proof.
  eapply (next_utterance_starts_fresh binary32 repr_plain
            (mkConfig "" [("en", says "hello")] None)
            (mkHandler None (mkSink (Some (opened 8000 1 1 [x80; x81])) None))
            false _ _ stereo [silence]).
  - vm_compute. reflexivity.
  - reflexivity.
Defined.



(** X7: a chunk without audio still opens the sink: if [wave] accepts its
    format and libsndfile opens the empty recording, the stop after it does
    not fail the assertion, and the selected model is called with an empty
    waveform at the chunk's rate. *)
Theorem empty_chunk_opens_sink : forall lib py_repr cfg h c,
  wav_file (wav h) = None ->
  audio c = [] ->
  recordable lib c [] = true ->
  exists h' tr,
    feed lib py_repr cfg [AudioChunk c; AudioStop] h = (Returned [true; false], h', tr)
    /\ recognize_calls tr
       = match selected cfg (py_or (request_language h) "en") with
         | Some (k, _) => [(k, Array1 [], rate c, py_or (request_language h) "en")]
         | None => []
         end.
Proof.
  intros lib py_repr cfg h c Hw Hc Hrec.
  destruct (utterance_run lib py_repr cfg h c [] Hw Hrec)
    as [h' [tr [text [Hrun [_ [Hcalls _]]]]]].
  exists h', tr. split; [exact Hrun|].
  rewrite Hcalls. cbn [map concat]. rewrite Hc. cbn [app].
  rewrite waveform_of_empty. reflexivity.
Qed.

Lemma empty_chunk_opens_sink_witness :
  exists h' tr,
    feed binary32 repr_plain (mkConfig "" [("en", says "")] None)
      [AudioChunk (mkChunk 16000 2 2 []); AudioStop] init
    = (Returned [true; false], h', tr)
    /\ recognize_calls tr = [("en", Array1 [], 16000, "en")].
Proof.
  apply (empty_chunk_opens_sink binary32 repr_plain (mkConfig "" [("en", says "")] None) init
           (mkChunk 16000 2 2 [])); reflexivity.
Defined.

(** ** Invariants of event sequences *)

Lemma py_or_not_empty : forall rl, String.eqb (py_or rl "en") "" = false.
Proof.
  intros [[|a r]|]; reflexivity.
Qed.

Section Sequences.

Variable lib : Libraries.
Variable py_repr : list string -> string.

(** What one event other than [AudioStop] does. *)
Lemma quiet_event : forall cfg e h,
  e <> AudioStop ->
  exists v h' tr,
    handle_event lib py_repr cfg e h = (v, h', tr)
    /\ lock_free tr = true
    /\ transcripts tr = []
    /\ recognize_calls tr = []
    /\ match v with
       | Returned b => b = true
       | Raised x => x = WaveError \/ x = StructError \/ x = AttributeError
       end
    /\ (healthy (wav h) = true -> accepted e = true ->
        v = Returned true
        /\ healthy (wav h') = true
        /\ recorded (wav h') = recorded (wav h) ++ payload e).
Proof.
  intros cfg e h He. destruct e as [c| |l| |t]; try congruence.
  - do 3 eexists. split; [apply chunk_run|]. repeat split; try reflexivity.
    + apply (proj2 (buffer_chunk_quiet c (wav h))).
    + destruct h as [rl [[w|] d]]; cbn [wav healthy wav_file] in *.
      * rewrite (buffer_chunk_writing c w d H). reflexivity.
      * rewrite buffer_chunk_closed. cbn in H0. unfold wave_accepts in H0.
        destruct (chunk_refusal c); [discriminate | reflexivity].
    + unfold write_chunk. destruct h as [rl [[w|] d]]; cbn [wav healthy wav_file] in *.
      * rewrite (buffer_chunk_writing c w d H). reflexivity.
      * rewrite buffer_chunk_closed. cbn in H0. unfold wave_accepts in H0.
        destruct (chunk_refusal c); [discriminate | reflexivity].
    + unfold write_chunk. destruct h as [rl [[w|] d]]; cbn [wav healthy wav_file] in *.
      * rewrite (buffer_chunk_writing c w d H). reflexivity.
      * rewrite buffer_chunk_closed. cbn in H0. unfold wave_accepts in H0.
        destruct (chunk_refusal c); [discriminate | reflexivity].
  - do 3 eexists. split; [reflexivity|]. repeat split; try reflexivity.
    + exact H.
    + cbn. rewrite app_nil_r. reflexivity.
  - do 3 eexists. split; [reflexivity|]. repeat split; try reflexivity.
    + exact H.
    + cbn. rewrite app_nil_r. reflexivity.
  - do 3 eexists. split; [reflexivity|]. repeat split; try reflexivity.
    + exact H.
    + cbn. rewrite app_nil_r. reflexivity.
Qed.

(** The calls of one event. *)
Lemma event_calls_ok : forall cfg e h,
  forallb call_ok (recognize_calls (trace_of (handle_event lib py_repr cfg e h))) = true.
Proof.
  intros cfg e h. destruct e as [c| |l| |t]; try reflexivity.
  - rewrite chunk_run. reflexivity.
  - destruct (wav_file (wav h)) as [w|] eqn:Hw.
    + destruct (stop_cases lib py_repr cfg h w Hw)
        as [[e [s1 [_ Hrun]]]
           | [wf [r [s1 [file [h' [tr [text [_ [Hrank [_ [Hrun [_ [Hcalls _]]]]]]]]]]]]]].
      * rewrite Hrun. reflexivity.
      * rewrite Hrun. cbn [trace_of snd]. rewrite Hcalls.
        pose proof (selected_cases cfg (py_or (request_language h) "en")) as Hsel.
        destruct (selected cfg (py_or (request_language h) "en")) as [[k a]|]; [|reflexivity].
        destruct Hsel as [Hk _]. cbn.
        rewrite Hrank, py_or_not_empty.
        destruct Hk; subst k; reflexivity.
    + rewrite (stop_assert lib py_repr cfg h Hw). reflexivity.
Qed.

(** One transcript for a [False], none for a [True]. *)
Lemma event_transcripts : forall cfg e h b h' tr,
  handle_event lib py_repr cfg e h = (Returned b, h', tr) ->
  length (transcripts tr) = if b then 0%nat else 1%nat.
Proof.
  intros cfg e h b h' tr Hrun. destruct e as [c| |l| |t].
  - rewrite chunk_run in Hrun. inversion Hrun; subst.
    pose proof (proj2 (buffer_chunk_quiet c (wav h))) as Hv. rewrite H0 in Hv. subst b.
    reflexivity.
  - destruct (stop_returned lib py_repr cfg h b h' tr Hrun) as [Hb [_ [text Hsent]]].
    subst b. rewrite (sent_transcripts _ _ Hsent). reflexivity.
  - cbn in Hrun. inversion Hrun; subst. reflexivity.
  - cbn in Hrun. inversion Hrun; subst. reflexivity.
  - cbn in Hrun. inversion Hrun; subst. reflexivity.
Qed.

(** A sequence without [AudioStop]. *)
Lemma quiet_feed : forall cfg evs h,
  ~ In AudioStop evs ->
  exists v h' tr,
    feed lib py_repr cfg evs h = (v, h', tr)
    /\ lock_free tr = true
    /\ transcripts tr = []
    /\ recognize_calls tr = []
    /\ match v with
       | Returned bs => bs = map (fun _ => true) evs
       | Raised x => x = WaveError \/ x = StructError \/ x = AttributeError
       end
    /\ (healthy (wav h) = true -> forallb accepted evs = true ->
        v = Returned (map (fun _ => true) evs)
        /\ healthy (wav h') = true
        /\ recorded (wav h') = recorded (wav h) ++ concat (map payload evs)).
Proof.
  intros cfg evs. induction evs as [|e evs IH]; intros h Hno.
  - do 3 eexists. split; [reflexivity|]. repeat split; try reflexivity.
    + assumption.
    + cbn. rewrite app_nil_r. reflexivity.
  - assert (He : e <> AudioStop) by (intros ->; apply Hno; left; reflexivity).
    assert (Hrest : ~ In AudioStop evs) by (intros Hin; apply Hno; right; exact Hin).
    destruct (quiet_event cfg e h He) as [v [h1 [t1 [Hrun [Hl [Ht [Hc [Hv Hgood]]]]]]]].
    destruct v as [b|x].
    + subst b.
      destruct (IH h1 Hrest) as [v2 [h2 [t2 [Hrun2 [Hl2 [Ht2 [Hc2 [Hv2 Hgood2]]]]]]]].
      destruct v2 as [bs|x].
      * subst bs. exists (Returned (map (fun _ => true) (e :: evs))), h2, (t1 ++ t2).
        split; [cbn [map]; eapply feed_cons; eassumption|].
        split; [rewrite lock_free_app, Hl, Hl2; reflexivity|].
        split; [rewrite transcripts_app, Ht, Ht2; reflexivity|].
        split; [rewrite recognize_calls_app, Hc, Hc2; reflexivity|].
        split; [reflexivity|].
        intros Hh Hacc. cbn [forallb] in Hacc. apply andb_true_iff in Hacc.
        destruct Hacc as [Ha1 Ha2].
        destruct (Hgood Hh Ha1) as [_ [Hh1 Hr1]].
        destruct (Hgood2 Hh1 Ha2) as [_ [Hh2 Hr2]].
        split; [reflexivity|]. split; [exact Hh2|].
        rewrite Hr2, Hr1. cbn [map concat]. rewrite app_assoc. reflexivity.
      * exists (Raised x), h2, (t1 ++ t2).
        split; [cbn [feed]; unfold bind; rewrite Hrun, Hrun2; reflexivity|].
        split; [rewrite lock_free_app, Hl, Hl2; reflexivity|].
        split; [rewrite transcripts_app, Ht, Ht2; reflexivity|].
        split; [rewrite recognize_calls_app, Hc, Hc2; reflexivity|].
        split; [exact Hv2|].
        intros Hh Hacc. cbn [forallb] in Hacc. apply andb_true_iff in Hacc.
        destruct Hacc as [Ha1 Ha2].
        destruct (Hgood Hh Ha1) as [_ [Hh1 _]].
        destruct (Hgood2 Hh1 Ha2) as [Hcontra _]. discriminate.
    + exists (Raised x), h1, t1.
      split; [eapply feed_raised; exact Hrun|].
      split; [exact Hl|]. split; [exact Ht|]. split; [exact Hc|]. split; [exact Hv|].
      intros Hh Hacc. cbn [forallb] in Hacc. apply andb_true_iff in Hacc.
      destruct Hacc as [Ha1 _]. destruct (Hgood Hh Ha1) as [Hcontra _]. discriminate.
Qed.

End Sequences.

(** X8: events other than [AudioStop] never take the lock, call a model or
    write a transcript: buffering and the other requests of a session go on
    while another session holds the lock. Those that return, return [True];
    an exception among them is an error of the [wave] writer. In a session
    in which no earlier call raised, with chunks in formats that [wave]
    accepts (and a recording within what a RIFF header holds), all return
    [True]. *)
Theorem without_stop_no_lock : forall lib py_repr cfg evs h,
  ~ In AudioStop evs ->
  let o := feed lib py_repr cfg evs h in
  lock_free (trace_of o) = true
  /\ transcripts (trace_of o) = []
  /\ recognize_calls (trace_of o) = []
  /\ match value_of o with
     | Returned bs => bs = map (fun _ => true) evs
     | Raised x => x = WaveError \/ x = StructError \/ x = AttributeError
     end
  /\ (healthy (wav h) = true ->
      forallb accepted evs = true ->
      riff_fits (recorded (wav h) ++ concat (map payload evs)) = true ->
      value_of o = Returned (map (fun _ => true) evs)).
Proof.
  intros lib py_repr cfg evs h Hno o. unfold o.
  destruct (quiet_feed lib py_repr cfg evs h Hno)
    as [v [h' [tr [Hrun [Hl [Ht [Hc [Hv Hgood]]]]]]]].
  rewrite Hrun. cbn [trace_of value_of fst snd].
  repeat split; try assumption.
  intros Hh Hacc _. apply (Hgood Hh Hacc).
Qed.

Lemma without_stop_no_lock_witness :
  let o := feed binary32 repr_plain (mkConfig "info" [("en", says "hello")] None)
             [Describe; Transcribe (Some "fr"); AudioChunk stereo; OtherEvent "ping";
              AudioChunk silence] init in
  lock_free (trace_of o) = true
  /\ transcripts (trace_of o) = []
  /\ recognize_calls (trace_of o) = []
  /\ value_of o = Returned [true; true; true; true; true].
Proof.
  assert (Hno : ~ In AudioStop
                    [Describe; Transcribe (Some "fr"); AudioChunk stereo; OtherEvent "ping";
                     AudioChunk silence]).
  { cbn. intros H. repeat (destruct H as [H | H]; [discriminate|]). exact H. }
  destruct (without_stop_no_lock binary32 repr_plain
              (mkConfig "info" [("en", says "hello")] None)
              [Describe; Transcribe (Some "fr"); AudioChunk stereo; OtherEvent "ping";
               AudioChunk silence] init Hno) as [Hl [Ht [Hc [_ Hv]]]].
  split; [exact Hl|]. split; [exact Ht|]. split; [exact Hc|].
  apply Hv; reflexivity.
Defined.

(** X9: [Describe] events and events of unknown type are transparent: with
    them removed from a sequence, the handler ends in the same state, makes
    the same model calls, writes the same transcripts and raises the same
    exception or none. *)
Theorem passive_events_transparent : forall lib py_repr cfg evs h,
  let o := feed lib py_repr cfg evs h in
  let o' := feed lib py_repr cfg (filter (fun e => negb (is_passive e)) evs) h in
  state_of o = state_of o'
  /\ recognize_calls (trace_of o) = recognize_calls (trace_of o')
  /\ transcripts (trace_of o) = transcripts (trace_of o')
  /\ exn_of (value_of o) = exn_of (value_of o').
Proof.
  intros lib py_repr cfg evs. cbv zeta. induction evs as [|e evs IH]; intros h.
  - repeat split; reflexivity.
  - destruct (is_passive e) eqn:Hp.
    + cbn [filter]. rewrite Hp. cbn [negb].
      destruct (IH h) as [Hs [Hc [Ht Hx]]]. rewrite <- Hs, <- Hc, <- Ht, <- Hx.
      destruct e as [c| |l| |t]; try discriminate;
        cbn [feed]; unfold bind; cbn;
        destruct (feed lib py_repr cfg evs h) as [[[bs|x] h2] t2]; cbn;
        rewrite ?app_nil_r; repeat split; reflexivity.
    + cbn [filter]. rewrite Hp. cbn [negb feed]. unfold bind.
      destruct (handle_event lib py_repr cfg e h) as [[[b|x] h1] t1].
      * destruct (IH h1) as [Hs [Hc [Ht Hx]]].
        destruct (feed lib py_repr cfg evs h1) as [[[bs|x] h2] t2];
          destruct (feed lib py_repr cfg (filter (fun e => negb (is_passive e)) evs) h1)
            as [[[bs'|x'] h2'] t2'];
          cbn [state_of trace_of value_of exn_of fst snd ret] in *;
          rewrite ?app_nil_r, ?recognize_calls_app, ?transcripts_app;
          try discriminate; repeat split; congruence.
      * repeat split; reflexivity.
Qed.

(** X10: every call into a model, in any sequence of events from any state,
    goes to the adapter stored under ["en"] or ["multi"], with a waveform of
    rank one and a language that is not the empty string. *)
Theorem every_call_well_formed : forall lib py_repr cfg evs h,
  forallb call_ok (recognize_calls (trace_of (feed lib py_repr cfg evs h))) = true.
Proof.
  intros lib py_repr cfg evs. induction evs as [|e evs IH]; intros h; [reflexivity|].
  pose proof (event_calls_ok lib py_repr cfg e h) as He.
  cbn [feed]. unfold bind.
  destruct (handle_event lib py_repr cfg e h) as [[[b|x] h1] t1]; [|exact He].
  pose proof (IH h1) as Hrest.
  destruct (feed lib py_repr cfg evs h1) as [[[bs|x] h2] t2];
    cbn [trace_of snd ret] in *; rewrite ?app_nil_r, recognize_calls_app, forallb_app,
      He, Hrest; reflexivity.
Qed.

(** X11: in a sequence that ends without an exception, the transcripts
    written are as many as the [False] values returned: one per completed
    stop and none for anything else. *)
Theorem one_transcript_per_stop : forall lib py_repr cfg evs h bs h' tr,
  feed lib py_repr cfg evs h = (Returned bs, h', tr) ->
  length (transcripts tr) = count_occ bool_dec bs false.
Proof.
  intros lib py_repr cfg evs. induction evs as [|e evs IH]; intros h bs h' tr Hrun.
  - cbn in Hrun. inversion Hrun; subst. reflexivity.
  - cbn [feed] in Hrun. unfold bind in Hrun.
    destruct (handle_event lib py_repr cfg e h) as [[[b|x] h1] t1] eqn:He; [|discriminate].
    destruct (feed lib py_repr cfg evs h1) as [[[bs1|x] h2] t2] eqn:Hf; [|discriminate].
    cbn in Hrun. inversion Hrun; subst. rewrite app_nil_r, transcripts_app, length_app.
    rewrite (event_transcripts lib py_repr cfg e h b h1 t1 He), (IH h1 bs1 h' t2 Hf).
    destruct b; reflexivity.
Qed.

Lemma one_transcript_per_stop_witness :
  exists bs h' tr,
    feed binary32 repr_plain (mkConfig "info" [("multi", fails "boom")] None)
      [AudioChunk silence; Describe; AudioStop; AudioChunk stereo; AudioStop] init
    = (Returned bs, h', tr)
    /\ length (transcripts tr) = 2%nat.
Proof.
  do 3 eexists. split; [vm_compute; reflexivity|].
  apply (one_transcript_per_stop binary32 repr_plain
           (mkConfig "info" [("multi", fails "boom")] None)
           [AudioChunk silence; Describe; AudioStop; AudioChunk stereo; AudioStop] init
           [true; true; false; true; false]
           (mkHandler None
              (mkSink None (Some (container 16000 2 2 (audio stereo)))))).
  vm_compute. reflexivity.
Defined.

(** X12: a transcript consumes the requested language: after a stop that
    got a text from the model, the next utterance without a [Transcribe]
    event is recognized with ["en"]. *)
Theorem language_consumed_by_transcript : forall lib py_repr cfg h w k a t c cs,
  wav_file (wav h) = Some w ->
  reads_back lib w = true ->
  selected cfg (py_or (request_language h) "en") = Some (k, a) ->
  a (make_mono lib (fst (sf_read lib (sealed w)))) (framerate w)
    (py_or (request_language h) "en") = Text t ->
  recordable lib c cs = true ->
  exists bs h' tr,
    feed lib py_repr cfg (AudioStop :: map AudioChunk (c :: cs) ++ [AudioStop]) h
    = (Returned bs, h', tr)
    /\ map snd (recognize_calls tr) = [py_or (request_language h) "en"; "en"].
Proof.
  intros lib py_repr cfg h w k a t c cs Hw Hread Hsel Ha Hrec.
  pose proof (finalize_reads_back lib h w Hw Hread) as Hfin.
  destruct (stop_text lib py_repr cfg h w _ _ _ k a t Hw Hfin Hsel Ha)
    as [logs [m1 [m2 [m3 [Hlogs Hrun1]]]]].
  pose (h1 := mkHandler None (mkSink None (Some (sealed w)))).
  destruct (utterance_run lib py_repr cfg h1 c cs eq_refl Hrec)
    as [h3 [t3 [x3 [Hrun3 [_ [Hcalls3 _]]]]]].
  destruct (selected_some_any cfg _ "en" _ Hsel) as [[k' a'] Hen].
  do 3 eexists. split.
  - eapply feed_cons; [exact Hrun1 | exact Hrun3].
  - rewrite !recognize_calls_app, (only_logs_calls _ Hlogs), Hcalls3.
    unfold h1. cbn [request_language py_or]. rewrite Hen. reflexivity.
Qed.

Lemma language_consumed_by_transcript_witness :
  exists bs h' tr,
    feed binary32 repr_plain (mkConfig "" [("multi", says "bonjour")] None)
      (AudioStop :: map AudioChunk [silence] ++ [AudioStop])
      (buffering (Some "fr"))
    = (Returned bs, h', tr)
    /\ map snd (recognize_calls tr) = ["fr"; "en"].
Proof.
  apply (language_consumed_by_transcript binary32 repr_plain
           (mkConfig "" [("multi", says "bonjour")] None)
           (buffering (Some "fr"))
           (opened 16000 2 1 [x00; x40]) "multi" (says "bonjour") "bonjour" silence []);
    reflexivity.
Defined.

(** ** Sessions in good order *)

Section Order.

Variable lib : Libraries.
Variable py_repr : list string -> string.

(** From a sink in good order, one event leaves the sink in good order,
    unless the event is a first chunk that [wave] refuses: then the refused
    writer stays behind. *)
Lemma step_outcome : forall cfg e h,
  healthy (wav h) = true ->
  let o := handle_event lib py_repr cfg e h in
  (healthy (wav (state_of o)) = true
   /\ exn_of (value_of o) <> Some WaveError
   /\ exn_of (value_of o) <> Some StructError)
  \/ (exists c x,
        chunk_refusal c = Some x
        /\ exn_of (value_of o) = Some x
        /\ wav (state_of o) = mkSink (Some (refused c)) None).
Proof.
  intros cfg e h Hh o. unfold o. destruct e as [c| |l| |t].
  - rewrite chunk_run. unfold write_chunk. cbn [state_of value_of fst snd wav].
    destruct h as [rl [[w|] d]]; cbn [wav healthy wav_file] in *.
    + rewrite (buffer_chunk_writing c w d Hh). left.
      split; [reflexivity|]. split; discriminate.
    + rewrite buffer_chunk_closed. destruct (chunk_refusal c) as [x|] eqn:Hc.
      * right. exists c, x. split; [exact Hc|]. split; reflexivity.
      * left. split; [reflexivity|]. split; discriminate.
  - left. destruct (wav_file (wav h)) as [w|] eqn:Hw.
    + assert (Hwr : writing w = true) by (unfold healthy in Hh; rewrite Hw in Hh; exact Hh).
      assert (Hfin := finalize_writing lib w (speech_wav (wav h)) Hwr).
      assert (Hs : mkSink (Some w) (speech_wav (wav h)) = wav h)
        by (destruct h as [rl [f d]]; cbn in *; subst f; reflexivity).
      rewrite Hs in Hfin.
      destruct (sf_can_open lib (sealed w)).
      * destruct (stop_summary lib py_repr cfg h w _ _ _ Hw Hfin)
          as [h' [tr [text [Hrun [Hwav _]]]]].
        rewrite Hrun. cbn [state_of value_of fst snd]. rewrite Hwav.
        split; [reflexivity|]. split; discriminate.
      * rewrite (stop_read_raises lib py_repr cfg h w _ _ Hw Hfin).
        split; [reflexivity|]. split; discriminate.
    + rewrite (stop_assert lib py_repr cfg h Hw).
      split; [exact Hh|]. split; discriminate.
  - left. split; [exact Hh|]. split; discriminate.
  - left. split; [exact Hh|]. split; discriminate.
  - left. split; [exact Hh|]. split; discriminate.
Qed.

Lemma feed_outcome : forall cfg evs h,
  healthy (wav h) = true ->
  let o := feed lib py_repr cfg evs h in
  (healthy (wav (state_of o)) = true
   /\ exn_of (value_of o) <> Some WaveError
   /\ exn_of (value_of o) <> Some StructError)
  \/ (exists c x,
        chunk_refusal c = Some x
        /\ exn_of (value_of o) = Some x
        /\ wav (state_of o) = mkSink (Some (refused c)) None).
Proof.
  intros cfg evs. induction evs as [|e evs IH]; intros h Hh; cbv zeta.
  - left. split; [exact Hh|]. split; discriminate.
  - pose proof (step_outcome cfg e h Hh) as Hstep. cbv zeta in Hstep.
    cbn [feed]. unfold bind.
    destruct (handle_event lib py_repr cfg e h) as [[[b|x] h1] t1];
      cbn [state_of value_of exn_of fst snd] in *.
    + destruct Hstep as [[Hh1 _] | [c [x [_ [Hv _]]]]]; [|discriminate].
      pose proof (IH h1 Hh1) as Hrest. cbv zeta in Hrest.
      destruct (feed lib py_repr cfg evs h1) as [[[bs|x] h2] t2];
        cbn [state_of value_of exn_of fst snd ret] in *; exact Hrest.
    + exact Hstep.
Qed.

End Order.

(** ** Cleanup *)

Lemma close_run : forall r,
  close r
  = match wav_file (wav (self r)) with
    | Some w =>
        match writer_close w with
        | (Some x, w1) =>
            (Raised x,
             mkResources
               (mkHandler (request_language (self r))
                  (mkSink (Some w1) (speech_wav (wav (self r)))))
               (wav_dir r), [])
        | (None, w1) =>
            (Returned tt,
             mkResources
               (mkHandler (request_language (self r))
                  (mkSink None
                     (match wav_dir r with
                      | Some _ => None
                      | None => if closed w then speech_wav (wav (self r)) else Some w1
                      end)))
               None, [])
        end
    | None =>
        (Returned tt,
         mkResources
           (mkHandler (request_language (self r))
              (mkSink None
                 (match wav_dir r with
                  | Some _ => None
                  | None => speech_wav (wav (self r))
                  end)))
           None, [])
    end.
Proof.
  intros [[rl [[w|] sw]] [d|]];
    unfold close, bind, gets, on_self, on_sink, lift, wave_close, modify, cleanup, ret;
    cbn [self wav wav_file speech_wav wav_dir request_language];
    try reflexivity;
    destruct (writer_close w) as [[x|] w1]; reflexivity.
Qed.

Lemma writer_close_closed : forall w x w1,
  writer_close w = (Some x, w1) -> writer_close w1 = (None, w1).
Proof.
  intros w x w1. unfold writer_close.
  destruct (closed w); [discriminate|].
  destruct (ensure_header_written w) as [e w2]. intros H. inversion H; subst. reflexivity.
Qed.

(** X13: [close] releases everything and can be repeated: when the handler
    has no writer, or one that [Wave_write.close] closes without raising (as
    every writer that took a chunk), afterwards no writer is open, the
    temporary directory and the file in it are gone, the pending language is
    untouched and nothing was written to the client; a second [close]
    changes nothing. When the writer cannot be closed (the one a refused
    chunk leaves), its exception leaves [close] before the cleanup: the
    directory stays, and a second [close] releases everything. *)
Theorem close_releases : forall r d,
  wav_dir r = Some d ->
  match wav_file (wav (self r)) with
  | Some w => fst (writer_close w)
  | None => None
  end
  = None ->
  exists r',
    close r = (Returned tt, r', [])
    /\ released r' = true
    /\ request_language (self r') = request_language (self r)
    /\ close r' = (Returned tt, r', []).
Proof.
  intros r d Hd Hc. rewrite close_run, Hd.
  destruct (wav_file (wav (self r))) as [w|].
  - destruct (writer_close w) as [[x|] w1]; [discriminate|].
    eexists. split; [reflexivity|]. split; [reflexivity|]. split; [reflexivity|].
    rewrite close_run. reflexivity.
  - eexists. split; [reflexivity|]. split; [reflexivity|]. split; [reflexivity|].
    rewrite close_run. reflexivity.
Qed.

(** Closing in the middle of an utterance. *)
Lemma close_releases_witness :
  exists r',
    close (mkResources (buffering (Some "fr")) (Some "/tmp/tmpdir"))
    = (Returned tt, r', [])
    /\ released r' = true
    /\ request_language (self r') = Some "fr"
    /\ close r' = (Returned tt, r', []).
Proof.
  apply (close_releases (mkResources (buffering (Some "fr")) (Some "/tmp/tmpdir"))
           "/tmp/tmpdir"); reflexivity.
Defined.

(** X23: a writer that cannot be closed keeps [close] from cleaning up: the
    exception of [Wave_write.close] leaves [close], the temporary directory
    stays, and only a second [close] releases everything. *)
Theorem close_after_refused_chunk : forall r d w x,
  wav_dir r = Some d ->
  wav_file (wav (self r)) = Some w ->
  fst (writer_close w) = Some x ->
  exists r1 r2,
    close r = (Raised x, r1, [])
    /\ wav_dir r1 = Some d
    /\ released r1 = false
    /\ close r1 = (Returned tt, r2, [])
    /\ released r2 = true.
Proof.
  intros r d w x Hd Hw Hx. rewrite close_run, Hw, Hd.
  destruct (writer_close w) as [[x'|] w1] eqn:Hc; cbn in Hx; [|discriminate].
  inversion Hx; subst x'.
  do 2 eexists. split; [reflexivity|]. split; [reflexivity|]. split; [reflexivity|].
  rewrite close_run. cbn [self wav wav_file wav_dir speech_wav request_language].
  rewrite (writer_close_closed w x w1 Hc).
  split; reflexivity.
Qed.

(** A first chunk with a sample rate of 0, then [close]. *)
Lemma close_after_refused_chunk_witness :
  let h := state_of (handle_event binary32 repr_plain (mkConfig "" [] None)
                       (AudioChunk (mkChunk 0 2 1 [x00; x40])) init) in
  exists r1 r2,
    close (mkResources h (Some "/tmp/tmpdir")) = (Raised WaveError, r1, [])
    /\ wav_dir r1 = Some "/tmp/tmpdir"
    /\ released r1 = false
    /\ close r1 = (Returned tt, r2, [])
    /\ released r2 = true.
Proof.
  apply (close_after_refused_chunk
           (mkResources
              (state_of (handle_event binary32 repr_plain (mkConfig "" [] None)
                           (AudioChunk (mkChunk 0 2 1 [x00; x40])) init))
              (Some "/tmp/tmpdir"))
           "/tmp/tmpdir" fresh_wave WaveError); reflexivity.
Defined.

(** X14: a handler used as a context manager: for any events handled inside
    the [with] block, also when one of them raises, the block's result, the
    class of its exception and its trace are those of the events alone, and
    at the end everything is released, unless [wave] refused a chunk: then
    [close] raises an error of [wave] of the same class again and the
    temporary directory stays. *)
Theorem with_block_releases : forall lib py_repr cfg evs dir,
  let inside := feed lib py_repr cfg evs init in
  let o := with_handler (on_self (feed lib py_repr cfg evs)) (new dir) in
  value_of o = value_of inside
  /\ trace_of o = trace_of inside
  /\ request_language (self (state_of o)) = request_language (state_of inside)
  /\ released (state_of o)
     = match value_of inside with
       | Raised WaveError | Raised StructError => false
       | _ => true
       end.
Proof.
  intros lib py_repr cfg evs dir inside o.
  pose proof (feed_outcome lib py_repr cfg evs init eq_refl) as Hout. cbv zeta in Hout.
  unfold o, inside, with_handler, on_self, lift, new. cbn [self wav_dir].
  destruct (feed lib py_repr cfg evs init) as [[v h1] t1].
  cbn [state_of value_of trace_of fst snd] in *.
  rewrite close_run. cbn [self wav_dir].
  destruct Hout as [[Hh [Hnw Hns]] | [c [x [Hc [Hv Hwav]]]]].
  - assert (Hrel : match v with
                   | Raised WaveError | Raised StructError => false
                   | _ => true
                   end = true).
    { destruct v as [bs|[]]; try reflexivity; cbn in Hnw, Hns; congruence. }
    rewrite Hrel.
    destruct (wav_file (wav h1)) as [w|] eqn:Hw.
    + unfold healthy in Hh. rewrite Hw in Hh. rewrite (writer_close_writing w Hh).
      cbn. rewrite app_nil_r. repeat split; reflexivity.
    + cbn. rewrite app_nil_r. repeat split; reflexivity.
  - rewrite Hwav. cbn [wav_file speech_wav].
    pose proof (refused_close c x Hc) as Hclose.
    destruct (writer_close (refused c)) as [[x'|] w1]; cbn in Hclose; [|discriminate].
    inversion Hclose; subst x'.
    destruct v as [bs|x']; cbn in Hv; [discriminate|]. inversion Hv; subst x'.
    cbn. rewrite app_nil_r.
    destruct (chunk_refusal_exn c x Hc); subst x; repeat split; reflexivity.
Qed.

(** ** The older handler, further *)

(** X15: in the older handler an exception of [recognize] is not caught:
    when the recording reads back and the model raises, the exception leaves
    [handle_event] with the lock released and the sink closed, and no
    transcript is written. *)
Theorem nemo_failure_propagates : forall lib cfg s w msg,
  wav_file s = Some w ->
  reads_back lib w = true ->
  Nemo.model cfg (make_mono lib (fst (sf_read lib (sealed w)))) (framerate w) "en"
  = Raises msg ->
  exists tr,
    Nemo.handle_event lib cfg AudioStop s
    = (Raised (RecognizeError msg), mkSink None (Some (sealed w)), tr)
    /\ sent tr = []
    /\ critical tr
       = [Acquire;
          Recognize "model" (make_mono lib (fst (sf_read lib (sealed w)))) (framerate w) "en";
          Release].
Proof.
  intros lib cfg s w msg Hw Hread Hm.
  pose proof (finalize_reads_back lib (mkHandler None s) w Hw Hread) as Hfin.
  cbn [wav] in Hfin. unfold waveform_of in Hfin.
  rewrite (nemo_stop_run lib cfg s w Hw), Hfin, Hm.
  eexists. split; [reflexivity|]. split; reflexivity.
Qed.

Lemma nemo_failure_propagates_witness :
  exists tr,
    Nemo.handle_event binary32 (Nemo.mkConfig "" (fails "boom") None "/tmp/speech.wav")
      AudioStop (wav (buffering None))
    = (Raised (RecognizeError "boom"), mkSink None (Some (container 16000 2 1 [x00; x40])), tr)
    /\ sent tr = []
    /\ critical tr = [Acquire; Recognize "model" (Array1 [(1 # 2)%Q]) 16000 "en"; Release].
Proof.
  apply (nemo_failure_propagates binary32
           (Nemo.mkConfig "" (fails "boom") None "/tmp/speech.wav")
           (wav (buffering None)) (opened 16000 2 1 [x00; x40]) "boom"); reflexivity.
Defined.

(** X16: the older handler recognizes everything as English: whatever
    [Transcribe] events a sequence holds, every call into the model has
    language ["en"] and a waveform of rank one. *)
Theorem nemo_always_english : forall lib cfg evs s,
  forallb (fun c => String.eqb (snd c) "en" && (shape_len (snd (fst (fst c))) =? 1))
    (recognize_calls (trace_of (nemo_feed lib cfg evs s))) = true.
Proof.
  intros lib cfg evs. induction evs as [|e evs IH]; intros s; [reflexivity|].
  pose proof (nemo_event_calls lib cfg e s) as He.
  cbn [nemo_feed]. unfold bind.
  destruct (Nemo.handle_event lib cfg e s) as [[[b|x] s1] t1]; [|exact He].
  pose proof (IH s1) as Hrest.
  destruct (nemo_feed lib cfg evs s1) as [[[bs|x] s2] t2];
    cbn [trace_of snd ret] in *; rewrite ?app_nil_r, recognize_calls_app, forallb_app,
      He, Hrest; reflexivity.
Qed.

(** X17: with a registry that holds the older handler's model under ["en"]
    and an English (or no) pending language, one event has the same effect on
    the sink in both handlers and leads to the same model call; both return
    the same value and write the same events, except that where the older
    handler lets the exception of [recognize] through, the newer one returns
    [False] after an "ERROR: Transcription failed: ..." transcript. *)
Theorem handlers_agree_on_english : forall lib py_repr info m p path e h,
  py_or (request_language h) "en" = "en" ->
  let o := handle_event lib py_repr (mkConfig info [("en", m)] p) e h in
  let n := Nemo.handle_event lib (Nemo.mkConfig info m p path) e (wav h) in
  wav (state_of o) = state_of n
  /\ map call_args (recognize_calls (trace_of o))
     = map call_args (recognize_calls (trace_of n))
  /\ match value_of n with
     | Raised (RecognizeError msg) =>
         value_of o = Returned false
         /\ sent (trace_of o)
            = [Transcript ("ERROR: " ++ ("Transcription failed: " ++ msg))%string]
         /\ sent (trace_of n) = []
     | v => value_of o = v /\ sent (trace_of o) = sent (trace_of n)
     end.
Proof.
  intros lib py_repr info m p path e h Hen o n. unfold o, n.
  destruct e as [c| |l| |t].
  - rewrite chunk_run, nemo_chunk_run. unfold write_chunk.
    pose proof (buffer_chunk_quiet c (wav h)) as [Ht Hv].
    destruct (buffer_chunk c (wav h)) as [[v s1] tr].
    cbn [state_of trace_of value_of fst snd wav] in *. subst tr.
    split; [reflexivity|]. split; [reflexivity|].
    destruct v as [b|x]; [split; reflexivity|].
    destruct Hv as [Hx | [Hx | Hx]]; subst x; split; reflexivity.
  - destruct (wav_file (wav h)) as [w|] eqn:Hw.
    + rewrite (nemo_stop_run lib (Nemo.mkConfig info m p path) (wav h) w Hw).
      destruct (stop_cases lib py_repr (mkConfig info [("en", m)] p) h w Hw)
        as [[x [s1 [Hfin Hrun]]]
           | [wf [r [s1 [file [h' [tr [text [Hfin _]]]]]]]]].
      * rewrite Hfin, Hrun.
        cbn [state_of trace_of value_of fst snd wav].
        split; [reflexivity|].
        split; [destruct (fst (writer_close w)); reflexivity|].
        destruct (finalize_exn lib _ _ _ _ Hfin) as [Hx | [Hx | [Hx | Hx]]]; subst x;
          (split; [reflexivity|]); destruct (fst (writer_close w)); reflexivity.
      * assert (Hsel : selected (mkConfig info [("en", m)] p)
                         (py_or (request_language h) "en") = Some ("en", m))
          by (rewrite Hen; reflexivity).
        rewrite Hfin.
        destruct (m wf r "en") as [t|msg] eqn:Hm.
        -- assert (Ha : m wf r (py_or (request_language h) "en") = Text t)
             by (rewrite Hen; exact Hm).
           destruct (stop_text lib py_repr _ h w wf r s1 "en" m t Hw Hfin Hsel Ha)
             as [logs [m1 [m2 [m3 [Hlogs Hrun]]]]].
           rewrite Hrun. cbn [Nemo.model]. rewrite Hm.
           cbn [state_of trace_of value_of fst snd wav].
           rewrite recognize_calls_app, sent_app,
             (only_logs_calls _ Hlogs), (only_logs_sent _ Hlogs), Hen.
           repeat split; reflexivity.
        -- assert (Ha : m wf r (py_or (request_language h) "en") = Raises msg)
             by (rewrite Hen; exact Hm).
           destruct (stop_raises lib py_repr _ h w wf r s1 "en" m msg Hw Hfin Hsel Ha)
             as [logs [m1 [m2 [Hlogs Hrun]]]].
           rewrite Hrun. cbn [Nemo.model]. rewrite Hm.
           cbn [state_of trace_of value_of fst snd wav].
           rewrite recognize_calls_app, sent_app,
             (only_logs_calls _ Hlogs), (only_logs_sent _ Hlogs), Hen.
           repeat split; reflexivity.
    + rewrite (stop_assert lib py_repr _ h Hw),
        (nemo_stop_without_sink lib (Nemo.mkConfig info m p path) (wav h) Hw).
      repeat split; reflexivity.
  - repeat split; reflexivity.
  - repeat split; reflexivity.
  - repeat split; reflexivity.
Qed.

Lemma handlers_agree_on_english_witness :
  let o := handle_event binary32 repr_plain (mkConfig "" [("en", fails "boom")] None)
             AudioStop (buffering (Some "")) in
  let n := Nemo.handle_event binary32 (Nemo.mkConfig "" (fails "boom") None "/tmp/speech.wav")
             AudioStop (wav (buffering (Some ""))) in
  wav (state_of o) = state_of n
  /\ map call_args (recognize_calls (trace_of o))
     = map call_args (recognize_calls (trace_of n))
  /\ value_of o = Returned false
  /\ sent (trace_of o) = [Transcript "ERROR: Transcription failed: boom"]
  /\ sent (trace_of n) = [].
Proof.
  destruct (handlers_agree_on_english binary32 repr_plain "" (fails "boom") None
              "/tmp/speech.wav" AudioStop (buffering (Some "")) eq_refl) as [Hs [Hc Hv]].
  split; [exact Hs|]. split; [exact Hc|]. exact Hv.
Defined.

(** ** Describe, the older handler's lock, and sessions without Transcribe *)

Lemma infos_app : forall t1 t2, infos (t1 ++ t2) = infos t1 ++ infos t2.
Proof.
  intros t1 t2. unfold infos. rewrite sent_app. apply flat_map_app.
Qed.

Section Describe.

Variable lib : Libraries.
Variable py_repr : list string -> string.

Lemma event_infos : forall cfg e h,
  infos (trace_of (handle_event lib py_repr cfg e h))
  = if is_describe e then [wyoming_info_event cfg] else [].
Proof.
  intros cfg e h. destruct e as [c| |l| |t]; try reflexivity.
  - rewrite chunk_run. reflexivity.
  - destruct (wav_file (wav h)) as [w|] eqn:Hw.
    + destruct (stop_cases lib py_repr cfg h w Hw)
        as [[e [s1 [_ Hrun]]]
           | [wf [r [s1 [file [h' [tr [text [_ [_ [_ [Hrun [_ [_ [Hsent _]]]]]]]]]]]]]]].
      * rewrite Hrun. reflexivity.
      * rewrite Hrun. cbn [trace_of snd is_describe]. unfold infos. rewrite Hsent.
        reflexivity.
    + rewrite (stop_assert lib py_repr cfg h Hw). reflexivity.
Qed.

(** What a stop does to a handler with no pending language. *)
Lemma stop_unset_language : forall cfg h,
  request_language h = None ->
  exists v h' tr,
    handle_event lib py_repr cfg AudioStop h = (v, h', tr)
    /\ request_language h' = None
    /\ forallb (fun c => String.eqb (snd c) "en") (recognize_calls tr) = true.
Proof.
  intros cfg h Hrl.
  destruct (wav_file (wav h)) as [w|] eqn:Hw.
  - destruct (finalize_cases lib (wav h))
      as [[e [s1 Hfin]] | [wf [r [s1 [file [Hfin _]]]]]].
    { do 3 eexists. split; [eapply stop_read_raises; eassumption|].
      split; [exact Hrl | reflexivity]. }
    destruct (selected cfg (py_or (request_language h) "en")) as [[k a]|] eqn:Hsel.
    + destruct (a wf r (py_or (request_language h) "en")) as [t|msg] eqn:Ha.
      * destruct (stop_text lib py_repr cfg h w wf r s1 k a t Hw Hfin Hsel Ha)
          as [logs [m1 [m2 [m3 [Hlogs Hrun]]]]].
        do 3 eexists. split; [exact Hrun|]. split; [reflexivity|].
        rewrite recognize_calls_app, (only_logs_calls _ Hlogs), Hrl. reflexivity.
      * destruct (stop_raises lib py_repr cfg h w wf r s1 k a msg Hw Hfin Hsel Ha)
          as [logs [m1 [m2 [Hlogs Hrun]]]].
        do 3 eexists. split; [exact Hrun|]. split; [exact Hrl|].
        rewrite recognize_calls_app, (only_logs_calls _ Hlogs), Hrl. reflexivity.
    + destruct (stop_no_model lib py_repr cfg h w wf r s1 Hw Hfin Hsel)
        as [logs [msg [Hlogs Hrun]]].
      do 3 eexists. split; [exact Hrun|]. split; [exact Hrl|].
      rewrite recognize_calls_app, (only_logs_calls _ Hlogs). reflexivity.
  - do 3 eexists. split; [apply stop_assert; exact Hw|].
    split; [exact Hrl | reflexivity].
Qed.

End Describe.

(** X18: a [Describe] event is answered with the configured info event
    whatever the handler is doing, and nothing else writes one: in a sequence
    that ends without an exception, the info events written are the
    configured payload once per [Describe]. *)
Theorem describe_always_same_info : forall lib py_repr cfg evs h bs h' tr,
  feed lib py_repr cfg evs h = (Returned bs, h', tr) ->
  infos tr = repeat (wyoming_info_event cfg) (length (filter is_describe evs)).
Proof.
  intros lib py_repr cfg evs. induction evs as [|e evs IH]; intros h bs h' tr Hrun.
  - cbn in Hrun. inversion Hrun; subst. reflexivity.
  - cbn [feed] in Hrun. unfold bind in Hrun.
    pose proof (event_infos lib py_repr cfg e h) as He.
    destruct (handle_event lib py_repr cfg e h) as [[[b|x] h1] t1]; [|discriminate].
    destruct (feed lib py_repr cfg evs h1) as [[[bs1|x] h2] t2] eqn:Hf; [|discriminate].
    cbn in Hrun. inversion Hrun; subst. rewrite app_nil_r, infos_app.
    cbn [trace_of snd] in He. rewrite He, (IH h1 bs1 h' t2 Hf).
    cbn [filter]. destruct (is_describe e); reflexivity.
Qed.

Lemma describe_always_same_info_witness :
  exists bs h' tr,
    feed binary32 repr_plain (mkConfig "info" [("en", says "hello")] None)
      [Describe; AudioChunk silence; Describe; AudioStop; Describe] init
    = (Returned bs, h', tr)
    /\ infos tr = ["info"; "info"; "info"].
Proof.
  do 3 eexists. split; [vm_compute; reflexivity|].
  apply (describe_always_same_info binary32 repr_plain
           (mkConfig "info" [("en", says "hello")] None)
           [Describe; AudioChunk silence; Describe; AudioStop; Describe] init
           [true; true; true; false; true]
           (mkHandler None (mkSink None (Some (container 16000 2 1 (audio silence)))))).
  vm_compute. reflexivity.
Defined.

(** X19: sessions of the older handler that share the lock are serialized
    as well: under any interleaving, every [recognize] call is made by the
    session holding the lock, also when calls raise. *)
Theorem nemo_calls_never_overlap : forall lib sessions g s',
  exec (start (map (nemo_session_trace lib) sessions)) g s' ->
  serialized None g = true.
Proof.
  intros lib sessions g s' Hexec.
  apply (exec_serialized _ _ _ Hexec).
  apply start_consistent. apply Forall_forall. intros tr Hin.
  apply in_map_iff in Hin. destruct Hin as [[[cfg s] evs] [Htr _]]. subst tr.
  apply nemo_feed_lock_ok.
Qed.

Lemma nemo_calls_never_overlap_witness :
  exists g s',
    schedule (start (map (nemo_session_trace binary32) two_nemo_sessions))
      [0; 1; 1; 1; 1; 0; 1; 0; 0; 1; 0; 0; 1; 1; 0; 0]%nat
    = Some (g, s')
    /\ map fst (filter (fun a => match snd a with Recognize _ _ _ _ => true | _ => false end) g)
       = [1; 0]%nat
    /\ serialized None g = true.
Proof.
  do 2 eexists. split; [vm_compute; reflexivity|]. split; [reflexivity|].
  eapply (nemo_calls_never_overlap binary32 two_nemo_sessions).
  apply (schedule_exec [0; 1; 1; 1; 1; 0; 1; 0; 0; 1; 0; 0; 1; 1; 0; 0]%nat).
  vm_compute. reflexivity.
Defined.

(** X20: a session that never sends [Transcribe] is English throughout:
    from a handler with no pending language, a sequence without
    [Transcribe] events calls the models with language ["en"] only and ends
    with no pending language, whether it ends by an exception or not. *)
Theorem without_transcribe_english : forall lib py_repr cfg evs h,
  request_language h = None ->
  existsb is_transcribe evs = false ->
  let o := feed lib py_repr cfg evs h in
  request_language (state_of o) = None
  /\ forallb (fun c => String.eqb (snd c) "en") (recognize_calls (trace_of o)) = true.
Proof.
  intros lib py_repr cfg evs. induction evs as [|e evs IH]; intros h Hrl Hno o; unfold o.
  - split; [exact Hrl | reflexivity].
  - cbn [existsb] in Hno. apply orb_false_iff in Hno. destruct Hno as [He Hrest].
    assert (Hstep : exists v h1 t1,
               handle_event lib py_repr cfg e h = (v, h1, t1)
               /\ request_language h1 = None
               /\ forallb (fun c => String.eqb (snd c) "en") (recognize_calls t1) = true).
    { destruct e as [c| |l| |t]; try discriminate.
      - do 3 eexists. split; [apply chunk_run|]. split; [exact Hrl | reflexivity].
      - apply stop_unset_language. exact Hrl.
      - do 3 eexists. split; [reflexivity|]. split; [exact Hrl | reflexivity].
      - do 3 eexists. split; [reflexivity|]. split; [exact Hrl | reflexivity]. }
    destruct Hstep as [v [h1 [t1 [Hrun [Hrl1 Hc1]]]]].
    cbn [feed]. unfold bind. rewrite Hrun.
    destruct v as [b|x]; [|split; assumption].
    destruct (IH h1 Hrl1 Hrest) as [Hs Hc].
    destruct (feed lib py_repr cfg evs h1) as [[[bs|x] h2] t2];
      cbn [state_of trace_of fst snd ret] in *;
      rewrite ?app_nil_r, recognize_calls_app, forallb_app, Hc1, Hc;
      split; assumption || reflexivity.
Qed.

Lemma without_transcribe_english_witness :
  let o := feed binary32 repr_plain (mkConfig "" [("multi", fails "boom")] None)
             [AudioChunk silence; AudioStop; Describe; AudioChunk stereo; AudioStop] init in
  request_language (state_of o) = None
  /\ forallb (fun c => String.eqb (snd c) "en") (recognize_calls (trace_of o)) = true.
Proof.
  apply (without_transcribe_english binary32 repr_plain
           (mkConfig "" [("multi", fails "boom")] None)
           [AudioChunk silence; AudioStop; Describe; AudioChunk stereo; AudioStop] init);
    reflexivity.
Defined.

(** ** Down-mixing and sessions in good order *)

Lemma group_fuel_length : forall {A : Type} fuel n (l : list A) row,
  In row (group_fuel fuel n l) -> length row = n.
Proof.
  intros A fuel n. induction fuel as [|fuel IH]; intros l row Hin.
  - destruct Hin.
  - cbn [group_fuel] in Hin.
    destruct ((n =? 0)%nat || (length l <? n)%nat) eqn:E; [destruct Hin|].
    apply orb_false_iff in E. destruct E as [_ E].
    apply Nat.ltb_ge in E.
    destruct Hin as [Hrow | Hin].
    + subst row. rewrite length_firstn. lia.
    + eapply IH. exact Hin.
Qed.

Lemma group_length : forall {A : Type} n (l : list A) row,
  In row (group n l) -> length row = n.
Proof.
  intros A n l row. unfold group. apply group_fuel_length.
Qed.

(** X21: what reaches the model is of rank one, whatever libsndfile and
    numpy compute: for a recording that reads back, both handlers call
    [recognize] with the samples as read if there is one channel, and else
    with one value per frame, numpy's mean of the frame's samples, one
    sample per channel. *)
Theorem downmix_shape : forall lib py_repr cfg ncfg h w k a,
  wav_file (wav h) = Some w ->
  reads_back lib w = true ->
  selected cfg (py_or (request_language h) "en") = Some (k, a) ->
  let samples := map (pcm_sample lib) (group (Z.to_nat (sampwidth w)) (frames w)) in
  let rows := group (Z.to_nat (nchannels w)) samples in
  let mono := if nchannels w =? 1 then samples else map (row_mean lib) rows in
  recognize_calls (trace_of (handle_event lib py_repr cfg AudioStop h))
  = [(k, Array1 mono, framerate w, py_or (request_language h) "en")]
  /\ recognize_calls (trace_of (Nemo.handle_event lib ncfg AudioStop (wav h)))
     = [("model", Array1 mono, framerate w, "en")]
  /\ Forall (fun row => length row = Z.to_nat (nchannels w)) rows.
Proof.
  intros lib py_repr cfg ncfg h w k a Hw Hread Hsel samples rows mono.
  pose proof (finalize_reads_back lib h w Hw Hread) as Hfin.
  assert (Hwf : waveform_of lib (sealed w) = Array1 mono).
  { unfold waveform_of, sf_read, mono, rows, samples.
    cbn [sealed framerate sampwidth nchannels frames fst].
    destruct (nchannels w =? 1); reflexivity. }
  split; [|split].
  - destruct (stop_summary lib py_repr cfg h w _ _ _ Hw Hfin)
      as [h' [tr [text [Hrun [_ [Hcalls _]]]]]].
    rewrite Hrun. cbn [trace_of snd]. rewrite Hcalls, Hsel, Hwf. reflexivity.
  - rewrite (nemo_stop_run lib ncfg (wav h) w Hw), Hfin, Hwf.
    destruct (Nemo.model ncfg (Array1 mono) (framerate w) "en"); reflexivity.
  - apply Forall_forall. intros row Hin. apply (group_length _ _ _ Hin).
Qed.

(** One stereo frame pair of 16-bit samples, (0.5, 0) and (-0.5, 0.5):
    with float32 arithmetic the model gets 0.25 and 0. *)
Lemma downmix_shape_witness :
  recognize_calls
    (trace_of (handle_event binary32 repr_plain (mkConfig "" [("en", says "hi")] None)
                 AudioStop
                 (mkHandler None (mkSink (Some (opened 16000 2 2 (audio stereo))) None))))
  = [("en", Array1 [(1 # 4)%Q; 0%Q], 16000, "en")].
Proof.
  exact (proj1 (downmix_shape binary32 repr_plain (mkConfig "" [("en", says "hi")] None)
                  (Nemo.mkConfig "" (says "hi") None "/tmp/speech.wav")
                  (mkHandler None (mkSink (Some (opened 16000 2 2 (audio stereo))) None))
                  (opened 16000 2 2 (audio stereo)) "en" (says "hi")
                  eq_refl eq_refl eq_refl)).
Defined.

(** X22: a session stays in good order as long as its calls return: from a
    handler with no writer or one that takes frames, after any events
    handled without an exception the handler has no writer or one that takes
    frames; the handler that [__init__] builds is such a handler. *)
Theorem session_stays_in_order : forall lib py_repr cfg evs h bs h' tr,
  healthy (wav h) = true ->
  feed lib py_repr cfg evs h = (Returned bs, h', tr) ->
  healthy (wav h') = true /\ healthy (wav init) = true.
Proof.
  intros lib py_repr cfg evs h bs h' tr Hh Hrun.
  pose proof (feed_outcome lib py_repr cfg evs h Hh) as Hout. cbv zeta in Hout.
  rewrite Hrun in Hout. cbn [state_of value_of exn_of fst snd] in Hout.
  destruct Hout as [[Hh' _] | [c [x [_ [Hv _]]]]]; [|discriminate].
  split; [exact Hh' | reflexivity].
Qed.

Lemma session_stays_in_order_witness :
  healthy
    (wav (state_of (feed binary32 repr_plain (mkConfig "" [("en", says "hi")] None)
                      [AudioChunk silence; AudioStop; AudioChunk stereo] init)))
  = true.
Proof.
  refine (proj1 (session_stays_in_order binary32 repr_plain
                   (mkConfig "" [("en", says "hi")] None)
                   [AudioChunk silence; AudioStop; AudioChunk stereo] init
                   [true; false; true] _ _ eq_refl _)).
  vm_compute. reflexivity.
Defined.

(** X24: a refused first chunk ends the utterance: the writer it leaves
    takes no frames, so a further chunk raises again, and an [AudioStop]
    raises the error of [wave] when it closes the writer; no model is called
    and nothing is written to the client. *)
Theorem refused_chunk_ends_utterance : forall lib py_repr cfg h c x e,
  wav_file (wav h) = None ->
  chunk_refusal c = Some x ->
  e = AudioStop \/ (exists c', e = AudioChunk c') ->
  let o := feed lib py_repr cfg [AudioChunk c; e] h in
  let o' := handle_event lib py_repr cfg e (state_of o) in
  value_of o = Raised x
  /\ trace_of o = []
  /\ value_of o' = Raised x
  /\ sent (trace_of o') = []
  /\ recognize_calls (trace_of o') = [].
Proof.
  intros lib py_repr cfg h c x e Hw Hc He o o'. unfold o', o.
  rewrite (feed_raised lib py_repr cfg _ _ h x _ _
             (chunk_refused lib py_repr cfg c h x Hw Hc)).
  cbn [state_of value_of trace_of fst snd].
  split; [reflexivity|]. split; [reflexivity|].
  pose proof (refused_close c x Hc) as Hclose.
  destruct He as [-> | [c' ->]].
  - assert (Hfin : finalize_and_read lib (mkSink (Some (refused c)) None)
                   = (Raised x, mkSink (Some (snd (writer_close (refused c)))) None, [])).
    { unfold finalize_and_read, bind, wave_close. cbn [wav_file speech_wav].
      destruct (writer_close (refused c)) as [[x'|] w1]; cbn in Hclose; [|discriminate].
      inversion Hclose; subst x'. reflexivity. }
    rewrite (stop_read_raises lib py_repr cfg
               (mkHandler (request_language h) (mkSink (Some (refused c)) None))
               (refused c) x _ eq_refl Hfin).
    repeat split; reflexivity.
  - rewrite chunk_run. cbn [wav value_of trace_of fst snd].
    rewrite buffer_chunk_open.
    assert (Hwf : fst (writeframes (audio c') (refused c)) = Some x).
    { clear - Hc. destruct c as [r n ch a]. unfold chunk_refusal, refused in *.
      cbn [rate width channels audio] in *.
      destruct (r <=? 0) eqn:Er; cbn in *; [inversion Hc; reflexivity|].
      destruct (n <? 1) eqn:En1; cbn in *; [inversion Hc; reflexivity|].
      destruct (4 <? n) eqn:En4; cbn in *; [inversion Hc; reflexivity|].
      destruct (ch <? 1) eqn:Ec; cbn in *; [inversion Hc; reflexivity|].
      assert (Hch : (ch =? 0) = false) by (apply Z.eqb_neq; apply Z.ltb_ge in Ec; lia).
      assert (Hn : (n =? 0) = false) by (apply Z.eqb_neq; apply Z.ltb_ge in En1; lia).
      assert (Hr : (r =? 0) = false) by (apply Z.eqb_neq; apply Z.leb_gt in Er; lia).
      unfold writeframes, ensure_header_written, header_fits.
      cbn [framerate sampwidth nchannels headerwritten closed frames].
      rewrite Hch, Hn, Hr.
      destruct (format_fits r n ch); [discriminate|]. inversion Hc. reflexivity. }
    destruct (writeframes (audio c') (refused c)) as [[x'|] w1]; cbn in Hwf; [|discriminate].
    inversion Hwf; subst x'. repeat split; reflexivity.
Qed.

(** A first chunk with 70000 channels, which the header cannot hold, then
    [AudioStop]. *)
Lemma refused_chunk_ends_utterance_witness :
  let o := feed binary32 repr_plain (mkConfig "" [("en", says "hi")] None)
             [AudioChunk (mkChunk 16000 2 70000 [x00; x40]); AudioStop] init in
  value_of o = Raised StructError
  /\ value_of (handle_event binary32 repr_plain (mkConfig "" [("en", says "hi")] None)
                 AudioStop (state_of o))
     = Raised StructError.
Proof.
  destruct (refused_chunk_ends_utterance binary32 repr_plain
              (mkConfig "" [("en", says "hi")] None) init
              (mkChunk 16000 2 70000 [x00; x40]) StructError AudioStop
              eq_refl eq_refl (or_introl eq_refl)) as [Hv [_ [Hv' _]]].
  split; [exact Hv | exact Hv'].
Defined.
